(** * Property Portfolio API: a shallow embedding of [main.py] and [schemas.py]

    The handlers of the FastAPI application are embedded as functions in a
    state-and-exception monad over a [World]: the process environment, the
    [db] handle of the [database] module, the calls made to
    [create_document], and the traffic sent to the mail relay.

    Code that is not part of the two source files is a parameter of the
    development: [create_document] (module [database]), Python's [int()],
    the e-mail syntax check behind pydantic's [EmailStr], the check
    [email.message] makes on header values, and the answers of the SMTP
    relay. The pymongo cursor is modelled after its documented behaviour;
    the database is a value, so reading it does not fail.

    A Python [str] is modelled by the [string] of its UTF-8 encoding: its
    characters are counted by [len] and cut by [take_chars], not by the
    bytes of the encoding. *)

From Stdlib Require Import ZArith String Ascii List Lia DecimalString Sorted.
From stdpp Require Import base option list gmap strings.

Local Open Scope string_scope.
Local Open Scope Z_scope.

(** ** Python values, exceptions and results *)

(** The values found in stored documents and in JSON responses; a datetime
    is represented by its epoch milliseconds, a [VInt]. *)
Inductive value : Type :=
  | VNone
  | VBool (b : bool)
  | VInt (n : Z)
  | VStr (s : string)
  | VObjectId (hex : string).

(** The exceptions of the model are all instances of Python's [Exception]
    (so a handler [except Exception] catches every one of them). *)
Inductive exn : Type :=
  | HTTPException (status_code : Z) (detail : string)
  | ValueError (msg : string)
  | KeyError (key : string)
  | Exception (msg : string).

Inductive result (A : Type) : Type :=
  | Ok (a : A)
  | Raise (e : exn).
Arguments Ok {A} a.
Arguments Raise {A} e.

Definition is_ok {A} (r : result A) : bool :=
  match r with Ok _ => true | Raise _ => false end.

(** Truth value of an [Optional[str]]: [None] and [""] are falsy. *)
Definition truthy (o : option string) : bool :=
  match o with
  | Some (String _ _) => true
  | _ => false
  end.

(** [a or b] on [Optional[str]]. *)
Definition py_or (a b : option string) : option string :=
  if truthy a then a else b.

(** ** schemas.py *)

(** The [Literal[...]] of [PortfolioItem.category]. *)
Inductive Category : Type :=
  | Interiors
  | Exteriors
  | DroneAerial
  | ArchitecturalDetails
  | CommercialSpaces
  | ShortLetAirbnb.

Definition category_str (c : Category) : string :=
  match c with
  | Interiors => "Interiors"
  | Exteriors => "Exteriors"
  | DroneAerial => "Drone / Aerial"
  | ArchitecturalDetails => "Architectural Details"
  | CommercialSpaces => "Commercial Spaces"
  | ShortLetAirbnb => "Short-Let & Airbnb"
  end.

Definition all_categories : list Category :=
  [Interiors; Exteriors; DroneAerial; ArchitecturalDetails;
   CommercialSpaces; ShortLetAirbnb].

(** Validation of the [category] field: the string has to be one of the
    literal's values. *)
Definition validate_category (s : string) : option Category :=
  List.find (fun c => String.eqb (category_str c) s) all_categories.

Record PortfolioItem : Type := {
  title : option string;
  category : Category;
  src : string;
  caption : option string;
  width : option Z;
  height : option Z
}.

Record ContactMessage : Type := {
  name : string;
  email : string;
  phone : option string;
  message : string
}.

(** A JSON body posted to [/api/contact], before validation: every field is
    a string or is absent ([None] also stands for JSON [null]). *)
Record ContactBody : Type := {
  body_name : option string;
  body_email : option string;
  body_phone : option string;
  body_message : option string
}.

(** A byte of a UTF-8 text that continues the character begun before it. *)
Definition is_continuation (c : ascii) : bool :=
  let n := nat_of_ascii c in ((128 <=? n) && (n <? 192))%nat.

(** The number of characters of a text: every byte but the continuation
    bytes begins one. *)
Fixpoint chars (s : string) : nat :=
  match s with
  | EmptyString => 0%nat
  | String c r => if is_continuation c then chars r else S (chars r)
  end.

(** [len(s)] *)
Definition len (s : string) : Z := Z.of_nat (chars s).

(** [s[:n]]: the first [n] characters, each with all its bytes. *)
Fixpoint take_chars (n : nat) (s : string) : string :=
  match s with
  | EmptyString => EmptyString
  | String c r =>
      if is_continuation c then String c (take_chars n r)
      else match n with
           | O => EmptyString
           | S m => String c (take_chars m r)
           end
  end.

(** [Field(..., min_length=lo, max_length=hi)] on a required [str]. *)
Definition required_str (lo hi : Z) (f : option string) : option string :=
  match f with
  | Some s => if (lo <=? len s) && (len s <=? hi) then Some s else None
  | None => None
  end.

(** [Field(None, max_length=hi)] on an [Optional[str]]. *)
Definition optional_str (hi : Z) (f : option string) : option (option string) :=
  match f with
  | Some s => if len s <=? hi then Some (Some s) else None
  | None => Some None
  end.

Section Validation.

(** pydantic's [EmailStr] (package [email-validator]): the normalized
    address, or [None] when the syntax is not valid. *)
Variable valid_email : string -> option string.

Definition email_str (f : option string) : option string :=
  match f with
  | Some s => valid_email s
  | None => None
  end.

(** Construction of a [ContactMessage] from the body: [None] stands for a validation error. *)
Definition validate_contact (b : ContactBody) : option ContactMessage :=
  n ← required_str 2 120 (body_name b);
  e ← email_str (body_email b);
  p ← optional_str 50 (body_phone b);
  m ← required_str 5 5000 (body_message b);
  Some {| name := n; email := e; phone := p; message := m |}.

End Validation.

(** ** The document store (module [database], pymongo) *)

(** A stored document: MongoDB gives every document an [_id]. *)
Record Document : Type := {
  doc_id : string;
  doc_fields : gmap string value
}.

(** The Python [dict] a cursor yields for a document. *)
Definition as_dict (d : Document) : gmap string value :=
  <["_id" := VObjectId (doc_id d)]> (doc_fields d).

(** A database: the documents of each named collection. *)
Definition Database : Type := gmap string (list Document).

(** [db[name]]: a collection that was never written to is empty. *)
Definition collection (d : Database) (name : string) : list Document :=
  default [] (d !! name).

#[global] Instance value_eq_dec : EqDecision value.
Proof. solve_decision. Defined.

(** A query filter [{k: v, ...}] matches the documents whose field [k]
    equals [v], for every key of the filter. *)
Definition matches (flt : gmap string value) (d : Document) : bool :=
  bool_decide (map_Forall (fun k v => as_dict d !! k = Some v) flt).

(** BSON comparison order of the values of the model; a missing field
    compares like null. *)
Definition bson_rank (v : option value) : Z :=
  match v with
  | None | Some VNone => 0
  | Some (VInt _) => 1
  | Some (VStr _) => 2
  | Some (VObjectId _) => 3
  | Some (VBool _) => 4
  end.

Definition bson_leb (a b : option value) : bool :=
  if bson_rank a <? bson_rank b then true
  else if bson_rank b <? bson_rank a then false
  else match a, b with
       | Some (VInt x), Some (VInt y) => x <=? y
       | Some (VStr x), Some (VStr y) => String.leb x y
       | Some (VObjectId x), Some (VObjectId y) => String.leb x y
       | Some (VBool x), Some (VBool y) => implb x y
       | _, _ => true
       end.

Fixpoint insert_by {A} (le : A -> A -> bool) (x : A) (l : list A) : list A :=
  match l with
  | [] => [x]
  | y :: r => if le x y then x :: l else y :: insert_by le x r
  end.

Definition sort_by {A} (le : A -> A -> bool) (l : list A) : list A :=
  foldr (insert_by le) [] l.

(** A pymongo cursor: the query is only described until it is iterated. *)
Record Cursor : Type := {
  cur_docs : list Document;
  cur_filter : gmap string value;
  cur_sort : option (string * Z);
  cur_skip : Z;
  cur_limit : Z
}.

Definition find (coll : list Document) (flt : gmap string value) : Cursor :=
  {| cur_docs := coll; cur_filter := flt; cur_sort := None;
     cur_skip := 0; cur_limit := 0 |}.

Definition cursor_sort (key : string) (direction : Z) (c : Cursor) : Cursor :=
  {| cur_docs := cur_docs c; cur_filter := cur_filter c;
     cur_sort := Some (key, direction);
     cur_skip := cur_skip c; cur_limit := cur_limit c |}.

(** [Cursor.skip] refuses a negative number. *)
Definition cursor_skip (n : Z) (c : Cursor) : result Cursor :=
  if n <? 0 then Raise (ValueError "'skip' must be >= 0")
  else Ok {| cur_docs := cur_docs c; cur_filter := cur_filter c;
             cur_sort := cur_sort c; cur_skip := n; cur_limit := cur_limit c |}.

Definition cursor_limit (n : Z) (c : Cursor) : Cursor :=
  {| cur_docs := cur_docs c; cur_filter := cur_filter c;
     cur_sort := cur_sort c; cur_skip := cur_skip c; cur_limit := n |}.

Definition apply_sort (s : option (string * Z)) (l : list Document) : list Document :=
  match s with
  | None => l
  | Some (key, direction) =>
      let k d := as_dict d !! key in
      if direction <? 0
      then sort_by (fun a b => bson_leb (k b) (k a)) l
      else sort_by (fun a b => bson_leb (k a) (k b)) l
  end.

(** A limit of [0] is no limit; a negative limit [-n] returns at most [n]
    documents (in a single batch). *)
Definition apply_limit (n : Z) (l : list Document) : list Document :=
  if n =? 0 then l else take (Z.to_nat (Z.abs n)) l.

(** The documents matched by the query, before [skip] and [limit]. *)
Definition matching (c : Cursor) : list Document :=
  List.filter (matches (cur_filter c)) (cur_docs c).

(** Iterating the cursor: filter, sort, skip, limit, in this order. *)
Definition iterate (c : Cursor) : list (gmap string value) :=
  as_dict <$>
    apply_limit (cur_limit c)
      (drop (Z.to_nat (cur_skip c)) (apply_sort (cur_sort c) (matching c))).

Definition count_documents (coll : list Document) (flt : gmap string value) : Z :=
  Z.of_nat (length (List.filter (matches flt) coll)).

(** ** The mail relay (smtplib, email.message) *)

Record EmailMessage : Type := {
  Subject : string;
  From : string;
  To : string;
  content : string
}.

(** What the process asks of the relay, in order. *)
Inductive SmtpEvent : Type :=
  | EvConnect (host : string) (port : Z)
  | EvStartTLS
  | EvLogin (user password : string)
  | EvSendMessage (msg : EmailMessage)
  | EvQuit.

(** The relay's answers: [None] when the call succeeds, [Some e] when it
    raises [e]. *)
Record SmtpRelay : Type := {
  smtp_connect : string -> Z -> option exn;
  smtp_starttls : option exn;
  smtp_login : string -> string -> option exn;
  smtp_send_message : EmailMessage -> option exn;
  smtp_quit : option exn
}.

(** ** The world of a request *)

(** The pydantic models handed to [create_document]. *)
Inductive Model : Type :=
  | ModelPortfolioItem (it : PortfolioItem)
  | ModelContactMessage (m : ContactMessage).

Record World : Type := {
  environ : gmap string string;
  db : option Database;
  store_calls : list (string * Model);
  smtp_log : list SmtpEvent
}.

Definition M (A : Type) : Type := World -> result A * World.

Definition ret {A} (a : A) : M A := fun w => (Ok a, w).

Definition raise {A} (e : exn) : M A := fun w => (Raise e, w).

Definition bind {A B} (m : M A) (k : A -> M B) : M B :=
  fun w =>
    match m w with
    | (Ok a, w') => k a w'
    | (Raise e, w') => (Raise e, w')
    end.

(** [try: m except Exception as e: h e] *)
Definition try_except {A} (m : M A) (h : exn -> M A) : M A :=
  fun w =>
    match m w with
    | (Ok a, w') => (Ok a, w')
    | (Raise e, w') => h e w'
    end.

Definition lift {A} (r : result A) : M A := fun w => (r, w).

Declare Scope py_scope.
Delimit Scope py_scope with py.
Notation "x <- m ;; k" := (bind m (fun x => k))
  (at level 100, m at next level, right associativity) : py_scope.
Notation "m ;;; k" := (bind m (fun _ => k))
  (at level 100, right associativity) : py_scope.
Local Open Scope py_scope.

(** [os.getenv(key)] and [os.getenv(key, default)] *)
Definition getenv (key : string) : M (option string) :=
  fun w => (Ok (environ w !! key), w).

Definition getenv_default (key dflt : string) : M string :=
  fun w => (Ok (default dflt (environ w !! key)), w).

Definition get_db : M (option Database) := fun w => (Ok (db w), w).

(** [str(e)] and [str(v)] *)
Definition str_Z (n : Z) : string := NilZero.string_of_int (Z.to_int n).

Definition str_exn (e : exn) : string :=
  match e with
  | HTTPException c d => str_Z c +:+ ": " +:+ d
  | ValueError m => m
  | KeyError k => "'" +:+ k +:+ "'"
  | Exception m => m
  end.

Definition py_str (v : value) : string :=
  match v with
  | VNone => "None"
  | VBool true => "True"
  | VBool false => "False"
  | VInt n => str_Z n
  | VStr s => s
  | VObjectId h => h
  end.

Definition nl : string := String (ascii_of_nat 10) "".

(** [acc = []; for x in l: acc.append(f(x))], started from [acc]. *)
Fixpoint for_each {A B} (f : A -> M B) (l : list A) (acc : list B) : M (list B) :=
  match l with
  | [] => ret acc
  | x :: r => y <- f x;; for_each f r (acc ++ [y])
  end.

(** ** main.py *)

Record ListResponse : Type := {
  resp_items : list (gmap string value);
  resp_total : Z;
  resp_page : Z;
  resp_limit : Z
}.

Record BulkResponse : Type := {
  inserted : Z;
  ids : list string
}.

(** The response of [/api/contact]; [saved_id] is its ["id"] key. *)
Record ContactResponse : Type := {
  status : string;
  saved_id : option string;
  detail : string
}.

Definition not_configured : exn :=
  HTTPException 500 "Database not configured".

Section Handlers.

(** Python's [int()] applied to a [str]: the number, or the exception it
    raises. *)
Variable py_int : string -> result Z.

(** [database.create_document(collection_name, data)]: returns the id the
    store assigned or raises, and may change the store. *)
Variable create_document :
  string -> Model -> option Database -> result string * option Database.

(** The mail relay the process talks to. *)
Variable relay : SmtpRelay.

(** The check [email.message] makes when a header is assigned. *)
Variable header_ok : string -> bool.

Definition call_create_document (collection_name : string) (data : Model) : M string :=
  fun w =>
    let '(r, d) := create_document collection_name data (db w) in
    (r, {| environ := environ w; db := d;
           store_calls := store_calls w ++ [(collection_name, data)];
           smtp_log := smtp_log w |}).

(** One call of the relay: it is logged, then succeeds or raises. *)
Definition smtp_call (ev : SmtpEvent) (answer : option exn) : M unit :=
  fun w =>
    (match answer with None => Ok tt | Some e => Raise e end,
     {| environ := environ w; db := db w; store_calls := store_calls w;
        smtp_log := smtp_log w ++ [ev] |}).

(** [with smtplib.SMTP(host, port, timeout=15) as server: body]: the
    constructor connects; leaving the block sends QUIT, also when the body
    raised, and an exception of QUIT replaces the body's. *)
Definition with_smtp {A} (host : string) (port : Z) (body : M A) : M A :=
  smtp_call (EvConnect host port) (smtp_connect relay host port);;;
  fun w =>
    let '(r, w1) := body w in
    match smtp_call EvQuit (smtp_quit relay) w1 with
    | (Ok _, w2) => (r, w2)
    | (Raise e, w2) => (Raise e, w2)
    end.

Definition set_header (v : string) : M unit :=
  if header_ok v then ret tt
  else raise (ValueError "Header values may not contain linefeed or carriage return characters").

Definition new_message (subject from_email to_email body : string) : M EmailMessage :=
  set_header subject;;;
  set_header from_email;;;
  set_header to_email;;;
  ret {| Subject := subject; From := from_email; To := to_email; content := body |}.

Definition send_email_via_smtp (subject body from_email : string) : M (bool * string) :=
  host <- getenv "SMTP_HOST";;
  port_text <- getenv_default "SMTP_PORT" "587";;
  port <- lift (py_int port_text);;
  user <- getenv "SMTP_USER";;
  password <- getenv "SMTP_PASS";;
  contact_to <- getenv "CONTACT_TO_EMAIL";;
  fallback_to <- getenv "TO_EMAIL";;
  let to_email := py_or contact_to fallback_to in
  if negb (truthy host && truthy to_email) then ret (false, "SMTP not configured")
  else
    msg <- new_message subject from_email (default "" to_email) body;;
    try_except
      (with_smtp (default "" host) port
         (smtp_call EvStartTLS (smtp_starttls relay);;;
          (if truthy user && truthy password
           then smtp_call (EvLogin (default "" user) (default "" password))
                  (smtp_login relay (default "" user) (default "" password))
           else ret tt);;;
          smtp_call (EvSendMessage msg) (smtp_send_message relay msg));;;
       ret (true, "sent"))
      (fun e => ret (false, str_exn e)).

Definition contact_subject : string := "New portfolio inquiry".

Definition contact_body (payload : ContactMessage) : string :=
  "Name: " +:+ name payload +:+ nl
  +:+ "Email: " +:+ email payload +:+ nl
  +:+ "Phone: " +:+ default "" (py_or (phone payload) (Some "-")) +:+ nl +:+ nl
  +:+ "Message:" +:+ nl +:+ message payload +:+ nl.

Definition contact_detail (ok : bool) (info : string) (saved : option string) : string :=
  if ok then "Message emailed successfully"
  else if truthy saved then "Email not sent: " +:+ info +:+ ". Saved to database."
  else "Email not sent and could not save.".

Definition submit_contact (payload : ContactMessage) : M ContactResponse :=
  saved <- try_except
             (i <- call_create_document "contactmessage" (ModelContactMessage payload);;
              ret (Some i))
             (fun _ => ret None);;
  let subject := contact_subject in
  let body := contact_body payload in
  sent <- send_email_via_smtp subject body (email payload);;
  let '(ok, info) := sent in
  let status := if ok then "emailed" else "stored" in
  let detail := contact_detail ok info saved in
  ret {| status := status; saved_id := saved; detail := detail |}.

(** [doc["id"] = str(doc.pop("_id"))] *)
Definition pop_id (doc : gmap string value) : result (gmap string value) :=
  match doc !! "_id" with
  | Some v => Ok (<["id" := VStr (py_str v)]> (delete "_id" doc))
  | None => Raise (KeyError "_id")
  end.

Definition list_portfolio (category : option string) (page limit : Z) : M ListResponse :=
  d <- get_db;;
  match d with
  | None => raise not_configured
  | Some database =>
      let filter_dict : gmap string value :=
        if truthy category then {["category" := VStr (default "" category)]} else ∅ in
      let skip := Z.max 0 ((page - 1) * limit) in
      let coll := collection database "portfolioitem" in
      let total := count_documents coll filter_dict in
      skipped <- lift (cursor_skip skip (cursor_sort "created_at" (-1) (find coll filter_dict)));;
      let cursor := cursor_limit limit skipped in
      items <- for_each (fun doc => lift (pop_id doc)) (iterate cursor) [];;
      ret {| resp_items := items; resp_total := total;
             resp_page := page; resp_limit := limit |}
  end.

Definition portfolio_categories : M (list string) :=
  ret ["Interiors"; "Exteriors"; "Drone / Aerial"; "Architectural Details";
       "Commercial Spaces"; "Short-Let & Airbnb"].

Definition add_portfolio_item (item : PortfolioItem) : M string :=
  d <- get_db;;
  match d with
  | None => raise not_configured
  | Some _ => call_create_document "portfolioitem" (ModelPortfolioItem item)
  end.

Definition add_portfolio_bulk (items : list PortfolioItem) : M BulkResponse :=
  d <- get_db;;
  match d with
  | None => raise not_configured
  | Some _ =>
      ids <- for_each (fun it => call_create_document "portfolioitem" (ModelPortfolioItem it))
               items [];;
      ret {| inserted := Z.of_nat (length ids); ids := ids |}
  end.

End Handlers.

(** ** Sample parameters, to run the handlers on concrete inputs *)

Module Sample.

(** A stand-in for [int()], used only to run the handlers at concrete
    inputs (the theorems hold for every [py_int]): on a text of 1 to 18
    ASCII digits it returns the number, as [int()] does; every other text
    raises here, the empty text and a word as [int()] raises on them. *)
Definition digit_value (c : ascii) : option Z :=
  let n := nat_of_ascii c in
  if ((48 <=? n) && (n <=? 57))%nat then Some (Z.of_nat n - 48) else None.

Fixpoint digits (acc : Z) (s : string) : option Z :=
  match s with
  | EmptyString => Some acc
  | String c r => d ← digit_value c; digits (10 * acc + d) r
  end.

Definition int_of_digits (s : string) : result Z :=
  match s with
  | EmptyString => Raise (ValueError "invalid literal for int() with base 10: ''")
  | _ =>
      match (if (String.length s <=? 18)%nat then digits 0 s else None) with
      | Some n => Ok n
      | None =>
          Raise (ValueError ("invalid literal for int() with base 10: '" +:+ s +:+ "'"))
      end
  end.

(** [model_dump()] of a pydantic model, absent optional fields left out. *)
Definition opt_field (k : string) (v : option value) (m : gmap string value) :
  gmap string value :=
  match v with Some x => <[k := x]> m | None => m end.

Definition model_dump (data : Model) : gmap string value :=
  match data with
  | ModelPortfolioItem it =>
      opt_field "title" (VStr <$> title it)
        (opt_field "caption" (VStr <$> caption it)
           (opt_field "width" (VInt <$> width it)
              (opt_field "height" (VInt <$> height it)
                 (<["category" := VStr (category_str (category it))]>
                    {["src" := VStr (src it)]}))))
  | ModelContactMessage m =>
      opt_field "phone" (VStr <$> phone m)
        (<["name" := VStr (name m)]>
           (<["email" := VStr (email m)]> {["message" := VStr (message m)]}))
  end.

(** A store gateway that appends the document to its collection and names
    it after its position; it raises when there is no database. *)
Definition create_document (collection_name : string) (data : Model)
    (d : option Database) : result string * option Database :=
  match d with
  | None => (Raise (Exception "Database not available"), None)
  | Some database =>
      let coll := collection database collection_name in
      let i := "doc-" +:+ str_Z (Z.of_nat (length coll)) in
      (Ok i, Some (<[collection_name :=
                       (coll ++ [{| doc_id := i; doc_fields := model_dump data |}])%list]>
                     database))
  end.

(** A store gateway whose every insert fails. *)
Definition failing_create_document (collection_name : string) (data : Model)
    (d : option Database) : result string * option Database :=
  (Raise (Exception "insert failed"), d).

(** A store gateway that stores the document and returns an empty id. *)
Definition anonymous_create_document (collection_name : string) (data : Model)
    (d : option Database) : result string * option Database :=
  (Ok "", snd (create_document collection_name data d)).

(** A relay that accepts everything, and one that cannot be reached. *)
Definition relay_up : SmtpRelay :=
  {| smtp_connect := fun _ _ => None; smtp_starttls := None;
     smtp_login := fun _ _ => None; smtp_send_message := fun _ => None;
     smtp_quit := None |}.

Definition relay_down : SmtpRelay :=
  {| smtp_connect := fun _ _ => Some (Exception "[Errno 111] Connection refused");
     smtp_starttls := None; smtp_login := fun _ _ => None;
     smtp_send_message := fun _ => None; smtp_quit := None |}.

Definition any_header (v : string) : bool := true.

Definition any_email (s : string) : option string := Some s.

Definition payload : ContactMessage :=
  {| name := "Ada"; email := "ada@example.org"; phone := None;
     message := "Hello there" |}.

Definition item (c : Category) (url : string) : PortfolioItem :=
  {| title := None; category := c; src := url; caption := None;
     width := None; height := None |}.

Definition world (env : gmap string string) (d : option Database) : World :=
  {| environ := env; db := d; store_calls := []; smtp_log := [] |}.

(** No SMTP variable is set. *)
Definition env_unset : gmap string string := ∅.

(** A working mail configuration. *)
Definition env_mail : gmap string string :=
  <["SMTP_HOST" := "mail.example.org"]>
    (<["SMTP_PORT" := "2525"]> {["TO_EMAIL" := "studio@example.org"]}).

(** A configuration template whose values were left blank. *)
Definition env_blank : gmap string string :=
  <["SMTP_HOST" := ""]> (<["SMTP_PORT" := ""]> {["TO_EMAIL" := ""]}).

(** [SMTP_PORT] holds a service name instead of a number. *)
Definition env_named_port : gmap string string :=
  <["SMTP_PORT" := "submission"]> env_mail.

(** Only the port was given a value, and a blank one. *)
Definition env_blank_port : gmap string string := {["SMTP_PORT" := ""]}.

(** A database with two portfolio items. *)
Definition gallery : Database :=
  {["portfolioitem" :=
      [ {| doc_id := "65f0a1"; doc_fields :=
             <["created_at" := VInt 1000]>
               (model_dump (ModelPortfolioItem (item Interiors "https://example.org/a.jpg"))) |};
        {| doc_id := "65f0a2"; doc_fields :=
             <["created_at" := VInt 2000]>
               (model_dump (ModelPortfolioItem (item DroneAerial "https://example.org/b.jpg"))) |} ]]}.

End Sample.

(** ** Statements used by the theorems *)

(** The world after the persistence step of [submit_contact], and the
    saved id the handler continues with. *)
Definition persist (cd : string -> Model -> option Database -> result string * option Database)
    (payload : ContactMessage) (w : World) : option string * World :=
  match call_create_document cd "contactmessage" (ModelContactMessage payload) w with
  | (Ok i, w1) => (Some i, w1)
  | (Raise _, w1) => (None, w1)
  end.

(** The e-mail step of [submit_contact]. *)
Definition notify (py_int : string -> result Z) (relay : SmtpRelay)
    (header_ok : string -> bool) (payload : ContactMessage) : M (bool * string) :=
  send_email_via_smtp py_int relay header_ok contact_subject (contact_body payload)
    (email payload).

(** The configured relay host and recipient, the latter [CONTACT_TO_EMAIL]
    falling back to [TO_EMAIL]. *)
Definition smtp_host (w : World) : option string := environ w !! "SMTP_HOST".

Definition recipient (w : World) : option string :=
  py_or (environ w !! "CONTACT_TO_EMAIL") (environ w !! "TO_EMAIL").

(** The text [int()] is applied to. *)
Definition smtp_port_text (w : World) : string :=
  default "587" (environ w !! "SMTP_PORT").

(** Inserting the items one after the other, each insert starting from the
    store the previous one left; the ids in the order of the items. *)
Fixpoint sequential_inserts
    (cd : string -> Model -> option Database -> result string * option Database)
    (items : list PortfolioItem) (d : option Database) :
    result (list string) * option Database :=
  match items with
  | [] => (Ok [], d)
  | it :: rest =>
      match cd "portfolioitem" (ModelPortfolioItem it) d with
      | (Ok i, d1) =>
          match sequential_inserts cd rest d1 with
          | (Ok l, d2) => (Ok (i :: l), d2)
          | (Raise e, d2) => (Raise e, d2)
          end
      | (Raise e, d1) => (Raise e, d1)
      end
  end.

(** The world after the store gateway was called once for each item, in
    order, and left the database [d]. *)
Definition after_inserts (items : list PortfolioItem) (d : option Database)
    (w : World) : World :=
  {| environ := environ w; db := d;
     store_calls :=
       (store_calls w
        ++ map (fun it => ("portfolioitem", ModelPortfolioItem it)) items)%list;
     smtp_log := smtp_log w |}.

(** The filter [list_portfolio] builds from its [category] parameter. *)
Definition category_filter (category : option string) : gmap string value :=
  if truthy category then {["category" := VStr (default "" category)]} else ∅.

(** The documents a listing draws from: the matching documents of the
    collection, newest first. *)
Definition listed (d : Database) (category : option string) : list Document :=
  apply_sort (Some ("created_at", -1))
    (List.filter (matches (category_filter category)) (collection d "portfolioitem")).

(** A document as the listing shows it: [_id] replaced by the string [id]. *)
Definition shown (d : Document) : gmap string value :=
  <["id" := VStr (doc_id d)]> (delete "_id" (doc_fields d)).

(** ** Further code of the two files *)

(** A JSON body posted to [/api/portfolio], before validation: the text
    fields are strings or absent, the sizes are integers or absent. *)
Record PortfolioBody : Type := {
  body_title : option string;
  body_category : option string;
  body_src : option string;
  body_caption : option string;
  body_width : option Z;
  body_height : option Z
}.

(** [Field(None, ge=lo)] on an [Optional[int]]. *)
Definition optional_ge (lo : Z) (f : option Z) : option (option Z) :=
  match f with
  | Some n => if lo <=? n then Some (Some n) else None
  | None => Some None
  end.

Section PortfolioValidation.

(** pydantic's [HttpUrl]: the normalized URL, or [None] when the text is not
    an absolute http(s) URL. *)
Variable valid_url : string -> option string.

(** Construction of a [PortfolioItem] from the body: [None] stands for a
    validation error. *)
Definition validate_portfolio_item (b : PortfolioBody) : option PortfolioItem :=
  c ← body_category b ≫= validate_category;
  u ← body_src b ≫= valid_url;
  wd ← optional_ge 1 (body_width b);
  h ← optional_ge 1 (body_height b);
  Some {| title := body_title b; category := c; src := u;
          caption := body_caption b; width := wd; height := h |}.

End PortfolioValidation.

(** The leftover [User] schema, and a JSON body before validation (here
    [None] is an absent field). *)
Record User : Type := {
  user_name : string;
  user_email : string;
  address : option string;
  age : option Z;
  is_active : bool
}.

Record UserBody : Type := {
  ubody_name : option string;
  ubody_email : option string;
  ubody_address : option string;
  ubody_age : option Z;
  ubody_is_active : option bool
}.

(** [Field(None, ge=lo, le=hi)] on an [Optional[int]]. *)
Definition optional_range (lo hi : Z) (f : option Z) : option (option Z) :=
  match f with
  | Some n => if (lo <=? n) && (n <=? hi) then Some (Some n) else None
  | None => Some None
  end.

Section UserValidation.

Variable valid_email : string -> option string.

Definition validate_user (b : UserBody) : option User :=
  n ← ubody_name b;
  e ← email_str valid_email (ubody_email b);
  a ← optional_range 0 120 (ubody_age b);
  Some {| user_name := n; user_email := e; address := ubody_address b; age := a;
          is_active := default true (ubody_is_active b) |}.

End UserValidation.

(** The response of [/test]. *)
Record DiagResponse : Type := {
  backend : string;
  database : string;
  database_url : option string;
  database_name : option string;
  connection_status : string;
  collections : list string
}.

Definition set_database (v : string) (r : DiagResponse) : DiagResponse :=
  {| backend := backend r; database := v; database_url := database_url r;
     database_name := database_name r; connection_status := connection_status r;
     collections := collections r |}.

(** [str(e)[:80]] *)
Definition str_exn_80 (e : exn) : string := take_chars 80 (str_exn e).

Section Diagnostics.

(** [db.list_collection_names()]: the driver's answer, or the exception it
    raises. *)
Variable list_collection_names : Database -> result (list string).

(** [getattr(db, 'name', None)] *)
Variable name_of : Database -> option string.

(** The block of the outer [try] of [test_database], on the local
    [response]; the inner [try] catches what the listing raises. *)
Definition probe (d : option Database) (url : option string) (response : DiagResponse) :
    result unit * DiagResponse :=
  match d with
  | Some handle =>
      let response := set_database "✅ Available" response in
      let response :=
        {| backend := backend response; database := database response;
           database_url := Some (if truthy url then "✅ Set" else "❌ Not Set");
           database_name := Some (default "" (py_or (name_of handle) (Some "Unknown")));
           connection_status := connection_status response;
           collections := collections response |} in
      match list_collection_names handle with
      | Ok names =>
          (Ok tt,
           {| backend := backend response; database := "✅ Connected & Working";
              database_url := database_url response;
              database_name := database_name response;
              connection_status := "Connected";
              collections := take 10 names |})
      | Raise e =>
          (Ok tt, set_database ("⚠️ Connected but Error: " +:+ str_exn_80 e) response)
      end
  | None => (Ok tt, set_database "⚠️ Available but not initialized" response)
  end.

Definition test_database : M DiagResponse :=
  fun w =>
    let response :=
      {| backend := "✅ Running"; database := "❌ Not Available";
         database_url := None; database_name := None;
         connection_status := "Not Connected"; collections := [] |} in
    match probe (db w) (environ w !! "DATABASE_URL") response with
    | (Ok _, response) => (Ok response, w)
    | (Raise e, response) =>
        (Ok (set_database ("❌ Error: " +:+ str_exn_80 e) response), w)
    end.

End Diagnostics.

(** The items of one page of the listing; none when the handler raises. *)
Definition page_items (category : option string) (page limit : Z) (w : World) :
    list (gmap string value) :=
  match fst (list_portfolio category page limit w) with
  | Ok r => resp_items r
  | Raise _ => []
  end.

(** An item is not older than the next one: the order of [created_at],
    descending. *)
Definition newest_first (a b : gmap string value) : Prop :=
  bson_leb (b !! "created_at") (a !! "created_at") = true.

(** The events a call added to the relay's log. *)
Definition new_traffic (w w' : World) : list SmtpEvent :=
  drop (length (smtp_log w)) (smtp_log w').

(** The world after the events [evs] were sent to the relay, and nothing
    else happened. *)
Definition with_traffic (evs : list SmtpEvent) (w : World) : World :=
  {| environ := environ w; db := db w; store_calls := store_calls w;
     smtp_log := (smtp_log w ++ evs)%list |}.

(** A computation that, whatever it returns, only ever adds traffic to the
    relay's log. *)
Definition only_mails {A} (m : M A) : Prop :=
  forall w, exists evs, snd (m w) = with_traffic evs w.

(** The credentials of the configuration, when both are set. *)
Definition credentials (w : World) : option (string * string) :=
  if truthy (environ w !! "SMTP_USER") && truthy (environ w !! "SMTP_PASS")
  then Some (default "" (environ w !! "SMTP_USER"), default "" (environ w !! "SMTP_PASS"))
  else None.

(** The message the operation hands to the relay. *)
Definition outgoing (subject body from_email : string) (w : World) : EmailMessage :=
  {| Subject := subject; From := from_email; To := default "" (recipient w);
     content := body |}.

Module Demo.

(** A store gateway with room for one document per collection: the insert
    into a collection that holds a document already raises. *)
Definition capped_create_document (collection_name : string) (data : Model)
    (d : option Database) : result string * option Database :=
  match d with
  | Some handle =>
      match collection handle collection_name with
      | [] => Sample.create_document collection_name data d
      | _ :: _ => (Raise (Exception "quota exceeded"), d)
      end
  | None => (Raise (Exception "Database not available"), None)
  end.

(** A driver that lists the collections by name, one that times out, and
    the name of the database handle. *)
Definition list_names (d : Database) : result (list string) :=
  Ok (map fst (map_to_list d)).

Definition list_times_out (d : Database) : result (list string) :=
  Raise (Exception "No servers found yet, Timeout: 30.0s").

Definition handle_name (d : Database) : option string := Some "portfolio".

Definition any_url (s : string) : option string := Some s.

Definition three_items : list PortfolioItem :=
  [Sample.item Interiors "https://example.org/a.jpg";
   Sample.item Exteriors "https://example.org/b.jpg";
   Sample.item DroneAerial "https://example.org/c.jpg"].

(** A site with the two-item gallery, and a mail configuration with
    credentials. *)
Definition site : World := Sample.world Sample.env_unset (Some Sample.gallery).

Definition env_login : gmap string string :=
  <["SMTP_USER" := "studio"]> (<["SMTP_PASS" := "secret"]> Sample.env_mail).

Definition office : World := Sample.world env_login (Some ∅).

End Demo.

(** ** Theorems *)

Lemma validate_category_str (c : Category) : validate_category (category_str c) = Some c.
Proof. destruct c; reflexivity. Qed.

Lemma validate_category_Some (s : string) (c : Category) :
  validate_category s = Some c -> s = category_str c.
Proof.
  unfold validate_category. intros H.
  apply List.find_some in H as [_ H]. apply String.eqb_eq in H. congruence.
Qed.

(** C8: the categories endpoint returns, in every world and without touching
    it, one fixed list of six distinct strings, and a string is in that list
    exactly when [PortfolioItem] validation accepts it as a category. *)
Theorem portfolio_categories_fixed :
  exists cats : list string,
    length cats = 6%nat /\ NoDup cats
    /\ (forall w, portfolio_categories w = (Ok cats, w))
    /\ (forall s, In s cats <-> is_Some (validate_category s)).
Proof.
  exists (map category_str all_categories). split; [reflexivity|].
  split.
  { apply (bool_decide_unpack _). vm_compute. exact I. }
  split; [reflexivity|].
  intros s. split.
  - intros H. apply in_map_iff in H as (c & <- & _).
    rewrite validate_category_str. eauto.
  - intros [c H]. apply validate_category_Some in H as ->.
    apply in_map. destruct c; simpl; tauto.
Qed.

Lemma required_str_Some (lo hi : Z) (f : option string) :
  is_Some (required_str lo hi f) <-> exists s, f = Some s /\ lo <= len s <= hi.
Proof.
  unfold required_str. destruct f as [s|].
  - destruct (lo <=? len s) eqn:Hlo, (len s <=? hi) eqn:Hhi; simpl;
      (split; [intros [x Hx]|intros (x & [= <-] & Hb)]);
      try discriminate; try lia; eauto.
    exists s. split; [reflexivity|lia].
  - split; [intros [x Hx]; discriminate|intros (x & Hx & _); discriminate].
Qed.

Lemma optional_str_Some (hi : Z) (f : option string) :
  is_Some (optional_str hi f) <-> f = None \/ exists s, f = Some s /\ len s <= hi.
Proof.
  unfold optional_str. destruct f as [s|].
  - destruct (len s <=? hi) eqn:Hhi.
    + split; [intros _; right; exists s; split; [reflexivity|lia]|eauto].
    + split; [intros [x Hx]; discriminate|].
      intros [Hn|(x & [= <-] & Hb)]; [discriminate|lia].
  - split; [tauto|eauto].
Qed.

Lemma email_str_Some (valid_email : string -> option string) (f : option string) :
  is_Some (email_str valid_email f)
  <-> exists s, f = Some s /\ is_Some (valid_email s).
Proof.
  unfold email_str. destruct f as [s|].
  - split; [eauto|intros (x & [= <-] & Hb); exact Hb].
  - split; [intros [x Hx]; discriminate|intros (x & Hx & _); discriminate].
Qed.

(** C7: a body is accepted as a [ContactMessage] exactly when its name has
    2 to 120 characters, its email is syntactically valid, its phone is
    absent or has at most 50 characters, and its message has 5 to 5000
    characters; the message "abcd" is rejected whatever the other fields
    are, and "abcde" is accepted next to valid other fields. *)
Theorem validate_contact_accepts (valid_email : string -> option string) :
  (forall b : ContactBody,
      is_Some (validate_contact valid_email b) <->
      (exists n, body_name b = Some n /\ 2 <= len n <= 120)
      /\ (exists e, body_email b = Some e /\ is_Some (valid_email e))
      /\ (body_phone b = None \/ exists p, body_phone b = Some p /\ len p <= 50)
      /\ (exists m, body_message b = Some m /\ 5 <= len m <= 5000))
  /\ (forall n e p,
         validate_contact valid_email
           {| body_name := n; body_email := e; body_phone := p;
              body_message := Some "abcd" |} = None)
  /\ (forall n e e' p,
         2 <= len n <= 120 -> valid_email e = Some e' ->
         match p with Some s => len s <= 50 | None => True end ->
         validate_contact valid_email
           {| body_name := Some n; body_email := Some e; body_phone := p;
              body_message := Some "abcde" |}
         = Some {| name := n; email := e'; phone := p; message := "abcde" |}).
Proof.
  split; [|split].
  - intros b. rewrite <- required_str_Some, <- email_str_Some,
      <- optional_str_Some, <- required_str_Some.
    unfold validate_contact.
    destruct (required_str 2 120 (body_name b)),
      (email_str valid_email (body_email b)),
      (optional_str 50 (body_phone b)),
      (required_str 5 5000 (body_message b)); simpl;
      split; try (intros [x Hx]; discriminate); eauto;
      intros (H1 & H2 & H3 & H4);
      match goal with H : is_Some None |- _ => destruct H as [? ?]; discriminate end.
  - intros n e p. unfold validate_contact. cbn [body_name body_email body_phone body_message].
    destruct (required_str 2 120 n); [|reflexivity]. cbn [mbind option_bind].
    destruct (email_str valid_email e); [|reflexivity]. cbn [mbind option_bind].
    destruct (optional_str 50 p); reflexivity.
  - intros n e e' p Hn He Hp. unfold validate_contact, required_str, email_str.
    cbn [body_name body_email body_phone body_message]. rewrite He.
    replace (2 <=? len n) with true by lia.
    replace (len n <=? 120) with true by lia. simpl.
    destruct p as [s|]; simpl; [|reflexivity].
    replace (len s <=? 50) with true by lia. reflexivity.
Qed.

(** C9: while the database handle is [None], the listing, the single-create
    and the bulk-create handlers raise the HTTP 500 error "Database not
    configured" and leave the world as it was: no call of the store gateway
    has been made. *)
Theorem database_not_configured
    (cd : string -> Model -> option Database -> result string * option Database)
    (category : option string) (page limit : Z)
    (item : PortfolioItem) (items : list PortfolioItem) (w : World) :
  db w = None ->
  list_portfolio category page limit w
    = (Raise (HTTPException 500 "Database not configured"), w)
  /\ add_portfolio_item cd item w
    = (Raise (HTTPException 500 "Database not configured"), w)
  /\ add_portfolio_bulk cd items w
    = (Raise (HTTPException 500 "Database not configured"), w).
Proof.
  intros Hdb.
  unfold list_portfolio, add_portfolio_item, add_portfolio_bulk, bind, get_db.
  rewrite Hdb. repeat split.
Qed.

Lemma database_not_configured_witness :
  add_portfolio_bulk Sample.create_document
    [Sample.item Interiors "https://example.org/a.jpg"]
    (Sample.world Sample.env_unset None)
  = (Raise (HTTPException 500 "Database not configured"),
     Sample.world Sample.env_unset None).
Proof.
  apply (database_not_configured Sample.create_document None 1 18
           (Sample.item Interiors "https://example.org/a.jpg")
           [Sample.item Interiors "https://example.org/a.jpg"]
           (Sample.world Sample.env_unset None)).
  reflexivity.
Defined.

(** *** The monad's equations *)

Lemma bind_ok {A B} (m : M A) (k : A -> M B) (w w' : World) (a : A) :
  m w = (Ok a, w') -> bind m k w = k a w'.
Proof. unfold bind. intros ->. reflexivity. Qed.

Lemma bind_raise {A B} (m : M A) (k : A -> M B) (w w' : World) (e : exn) :
  m w = (Raise e, w') -> bind m k w = (Raise e, w').
Proof. unfold bind. intros ->. reflexivity. Qed.

Lemma try_except_ok {A} (m : M A) (h : exn -> M A) (w w' : World) (a : A) :
  m w = (Ok a, w') -> try_except m h w = (Ok a, w').
Proof. unfold try_except. intros ->. reflexivity. Qed.

Lemma try_except_raise {A} (m : M A) (h : exn -> M A) (w w' : World) (e : exn) :
  m w = (Raise e, w') -> try_except m h w = h e w'.
Proof. unfold try_except. intros ->. reflexivity. Qed.

Ltac run_monad :=
  unfold bind, ret, raise, lift, try_except, getenv, getenv_default, get_db.

(** *** The contact workflow *)

Section Contact.

Variable py_int : string -> result Z.
Variable cd : string -> Model -> option Database -> result string * option Database.
Variable relay : SmtpRelay.
Variable header_ok : string -> bool.

(** The handler is its two steps in sequence: the persistence step never
    raises, and the response is assembled from what the e-mail step returns. *)
Lemma submit_contact_steps (payload : ContactMessage) (w : World) :
  submit_contact py_int cd relay header_ok payload w =
  match notify py_int relay header_ok payload (snd (persist cd payload w)) with
  | (Ok (ok, info), w2) =>
      (Ok {| status := if ok then "emailed" else "stored";
             saved_id := fst (persist cd payload w);
             detail := contact_detail ok info (fst (persist cd payload w)) |}, w2)
  | (Raise e, w2) => (Raise e, w2)
  end.
Proof.
  unfold submit_contact, persist, notify. run_monad.
  destruct (call_create_document cd "contactmessage" (ModelContactMessage payload) w)
    as [[i|e] w1]; cbn [fst snd];
    destruct (send_email_via_smtp py_int relay header_ok contact_subject
                (contact_body payload) (email payload) w1) as [[[ok info]|e'] w2];
    reflexivity.
Qed.

Lemma persist_raise (payload : ContactMessage) (w : World) (e : exn) (d : option Database) :
  cd "contactmessage" (ModelContactMessage payload) (db w) = (Raise e, d) ->
  fst (persist cd payload w) = None.
Proof. unfold persist, call_create_document. intros ->. reflexivity. Qed.

Lemma persist_ok (payload : ContactMessage) (w : World) (i : string) (d : option Database) :
  cd "contactmessage" (ModelContactMessage payload) (db w) = (Ok i, d) ->
  fst (persist cd payload w) = Some i /\ db (snd (persist cd payload w)) = d.
Proof. unfold persist, call_create_document. intros ->. split; reflexivity. Qed.

(** Whenever the e-mail step of a submission returns, the handler answers,
    and the status of the response is "emailed" if the step returned success
    and "stored" if it returned failure; the outcome of the persistence step
    (any store gateway [cd]) plays no part. *)
Lemma submit_contact_status (payload : ContactMessage) (w w2 : World)
    (ok : bool) (info : string) :
  notify py_int relay header_ok payload (snd (persist cd payload w)) = (Ok (ok, info), w2) ->
  exists r : ContactResponse,
    submit_contact py_int cd relay header_ok payload w = (Ok r, w2)
    /\ status r = (if ok then "emailed" else "stored").
Proof.
  intros Hsend. rewrite submit_contact_steps, Hsend.
  eexists. split; reflexivity.
Qed.

(** Whenever the e-mail step of a submission returns, the detail of the
    response is one of three messages: the "emailed successfully" one if the
    step returned success; if it returned failure with the string [info],
    the "saved to database" one embedding [info] when there is a saved id
    (the test [if saved_id]: not [None], not empty), and the "could not
    save" one when there is none. *)
Lemma submit_contact_detail (payload : ContactMessage) (w w2 : World)
    (ok : bool) (info : string) :
  notify py_int relay header_ok payload (snd (persist cd payload w)) = (Ok (ok, info), w2) ->
  exists r : ContactResponse,
    submit_contact py_int cd relay header_ok payload w = (Ok r, w2)
    /\ saved_id r = fst (persist cd payload w)
    /\ detail r =
         match ok, truthy (saved_id r) with
         | true, _ => "Message emailed successfully"
         | false, true => "Email not sent: " +:+ info +:+ ". Saved to database."
         | false, false => "Email not sent and could not save."
         end.
Proof.
  intros Hsend. rewrite submit_contact_steps, Hsend.
  eexists. split; [reflexivity|]. split; [reflexivity|].
  cbn [detail saved_id]. unfold contact_detail. destruct ok; reflexivity.
Qed.

(** When persisting the message raises, the handler swallows that exception
    and goes on with a null saved id; whenever the e-mail step then returns,
    the handler answers and the response has id null. *)
Lemma submit_contact_persist_failure (payload : ContactMessage) (w w2 : World)
    (e : exn) (d : option Database) (ok : bool) (info : string) :
  cd "contactmessage" (ModelContactMessage payload) (db w) = (Raise e, d) ->
  notify py_int relay header_ok payload (snd (persist cd payload w)) = (Ok (ok, info), w2) ->
  fst (persist cd payload w) = None
  /\ exists r : ContactResponse,
       submit_contact py_int cd relay header_ok payload w = (Ok r, w2)
       /\ saved_id r = None.
Proof.
  intros Hcd Hsend. pose proof (persist_raise _ _ _ _ Hcd) as Hnone.
  split; [exact Hnone|].
  rewrite submit_contact_steps, Hsend. eexists. split; [reflexivity|].
  exact Hnone.
Qed.

(** C10: when the persistence call succeeds but returns a falsy id and the
    e-mail step returns failure, the detail of the response is "Email not
    sent and could not save." although the store holds what the call
    persisted; the response carries the falsy id. *)
Theorem submit_contact_falsy_id (payload : ContactMessage) (w w2 : World)
    (i : string) (d : option Database) (info : string) :
  cd "contactmessage" (ModelContactMessage payload) (db w) = (Ok i, d) ->
  truthy (Some i) = false ->
  notify py_int relay header_ok payload (snd (persist cd payload w)) = (Ok (false, info), w2) ->
  db (snd (persist cd payload w)) = d
  /\ exists r : ContactResponse,
       submit_contact py_int cd relay header_ok payload w = (Ok r, w2)
       /\ saved_id r = Some i
       /\ detail r = "Email not sent and could not save.".
Proof.
  intros Hcd Hfalsy Hsend. destruct (persist_ok _ _ _ _ Hcd) as [Hid Hdb].
  split; [exact Hdb|].
  rewrite submit_contact_steps, Hsend, Hid. eexists.
  split; [reflexivity|]. split; [reflexivity|].
  cbn [detail]. unfold contact_detail. rewrite Hfalsy. reflexivity.
Qed.

End Contact.

(** *** The e-mail sending operation *)

Section Email.

Variable py_int : string -> result Z.
Variable relay : SmtpRelay.
Variable header_ok : string -> bool.

(** Up to the configuration test the operation only reads the environment. *)
Lemma send_email_via_smtp_guard (subject body from_email : string) (w : World) :
  send_email_via_smtp py_int relay header_ok subject body from_email w =
  match py_int (smtp_port_text w) with
  | Raise e => (Raise e, w)
  | Ok port =>
      if truthy (smtp_host w) && truthy (recipient w)
      then bind (new_message header_ok subject from_email (default "" (recipient w)) body)
             (fun msg =>
                try_except
                  (bind (with_smtp relay (default "" (smtp_host w)) port
                           (bind (smtp_call EvStartTLS (smtp_starttls relay)) (fun _ =>
                            bind (if truthy (environ w !! "SMTP_USER")
                                     && truthy (environ w !! "SMTP_PASS")
                                  then smtp_call
                                         (EvLogin (default "" (environ w !! "SMTP_USER"))
                                            (default "" (environ w !! "SMTP_PASS")))
                                         (smtp_login relay
                                            (default "" (environ w !! "SMTP_USER"))
                                            (default "" (environ w !! "SMTP_PASS")))
                                  else ret tt) (fun _ =>
                            smtp_call (EvSendMessage msg) (smtp_send_message relay msg)))))
                        (fun _ => ret (true, "sent")))
                  (fun e => ret (false, str_exn e))) w
      else (Ok (false, "SMTP not configured"), w)
  end.
Proof.
  unfold send_email_via_smtp, smtp_port_text, smtp_host, recipient.
  unfold bind at 1 2 3. unfold getenv, getenv_default, lift. cbn [fst snd].
  destruct (py_int (default "587" (environ w !! "SMTP_PORT"))) as [port|e];
    [|reflexivity].
  unfold bind at 1 2 3 4. cbn.
  destruct (truthy (environ w !! "SMTP_HOST")
            && truthy (py_or (environ w !! "CONTACT_TO_EMAIL") (environ w !! "TO_EMAIL")));
    reflexivity.
Qed.

(** When [int()] accepts the port text and the host or the recipient is
    absent (unset, or empty), the operation returns [(False, "SMTP not
    configured")] and leaves the world, hence the relay, untouched; and
    whatever the configuration, the relay is only contacted when host and
    recipient are both present. *)
Lemma send_email_via_smtp_not_configured (subject body from_email : string) (w : World) :
  (is_ok (py_int (smtp_port_text w)) = true ->
   truthy (smtp_host w) && truthy (recipient w) = false ->
   send_email_via_smtp py_int relay header_ok subject body from_email w
   = (Ok (false, "SMTP not configured"), w))
  /\ (smtp_log (snd (send_email_via_smtp py_int relay header_ok subject body from_email w))
        <> smtp_log w ->
      truthy (smtp_host w) = true /\ truthy (recipient w) = true).
Proof.
  rewrite send_email_via_smtp_guard. split.
  - intros Hport Hconf.
    destruct (py_int (smtp_port_text w)); [|discriminate].
    rewrite Hconf. reflexivity.
  - intros Hlog.
    destruct (py_int (smtp_port_text w)); [|contradiction].
    destruct (truthy (smtp_host w)), (truthy (recipient w));
      try contradiction; split; reflexivity.
Qed.

(** X12: the operation returns, instead of raising, as soon as the port text
    is an integer literal and, when host and recipient are configured, the
    three header values are accepted; a failure of the relay never escapes. *)
Lemma send_email_via_smtp_returns (subject body from_email : string) (w : World)
    (port : Z) :
  py_int (smtp_port_text w) = Ok port ->
  (truthy (smtp_host w) && truthy (recipient w) = true ->
   header_ok subject = true /\ header_ok from_email = true
   /\ header_ok (default "" (recipient w)) = true) ->
  exists (ok : bool) (info : string) (w' : World),
    send_email_via_smtp py_int relay header_ok subject body from_email w
    = (Ok (ok, info), w').
Proof.
  intros Hport Hheaders. rewrite send_email_via_smtp_guard, Hport.
  destruct (truthy (smtp_host w) && truthy (recipient w)); [|eauto].
  destruct Hheaders as (Hs & Hf & Ht); [reflexivity|].
  unfold new_message, set_header. rewrite Hs, Hf, Ht.
  unfold bind at 1 2 3 4. unfold ret at 1 2 3 4.
  unfold try_except.
  match goal with
  | |- context [match ?m w with _ => _ end] => destruct (m w) as [[[ok info]|e] w1]
  end; unfold ret; eauto.
Qed.

End Email.

(** *** Bulk creation *)

Section Bulk.

Variable cd : string -> Model -> option Database -> result string * option Database.

Lemma sequential_inserts_length (items : list PortfolioItem) :
  forall (d d' : option Database) (ids : list string),
    sequential_inserts cd items d = (Ok ids, d') -> length ids = length items.
Proof.
  induction items as [|it rest IH]; intros d d' ids H; cbn in H.
  - injection H as <- _. reflexivity.
  - destruct (cd "portfolioitem" (ModelPortfolioItem it) d) as [[i|e] d1];
      [|discriminate].
    destruct (sequential_inserts cd rest d1) as [[l|e] d2] eqn:Hrest;
      [|discriminate].
    injection H as <- _. cbn. f_equal. exact (IH _ _ _ Hrest).
Qed.

(** Every id of the run is the one the gateway returned for the item at the
    same position. *)
Lemma sequential_inserts_assigned (items : list PortfolioItem) :
  forall (d d' : option Database) (ids : list string),
    sequential_inserts cd items d = (Ok ids, d') ->
    Forall2 (fun it i => exists d1 d2,
                 cd "portfolioitem" (ModelPortfolioItem it) d1 = (Ok i, d2))
      items ids.
Proof.
  induction items as [|it rest IH]; intros d d' ids H; cbn in H.
  - injection H as <- _. constructor.
  - destruct (cd "portfolioitem" (ModelPortfolioItem it) d) as [[i|e] d1] eqn:Hcd;
      [|discriminate].
    destruct (sequential_inserts cd rest d1) as [[l|e] d2] eqn:Hrest;
      [|discriminate].
    injection H as <- _. constructor; [eauto|exact (IH _ _ _ Hrest)].
Qed.

(** The loop of the handler, started with the ids collected so far. *)
Lemma for_each_inserts (items : list PortfolioItem) :
  forall (acc ids : list string) (w : World) (d' : option Database),
    sequential_inserts cd items (db w) = (Ok ids, d') ->
    for_each (fun it => call_create_document cd "portfolioitem" (ModelPortfolioItem it))
      items acc w
    = (Ok (acc ++ ids)%list, after_inserts items d' w).
Proof.
  induction items as [|it rest IH]; intros acc ids w d' H; cbn in H.
  - injection H as <- <-. cbn. unfold ret, after_inserts. cbn.
    rewrite !app_nil_r. destruct w; reflexivity.
  - destruct (cd "portfolioitem" (ModelPortfolioItem it) (db w)) as [[i|e] d1] eqn:Hcd;
      [|discriminate].
    destruct (sequential_inserts cd rest d1) as [[l|e] d2] eqn:Hrest;
      [|discriminate].
    injection H as <- <-. cbn [for_each].
    erewrite bind_ok by (unfold call_create_document; rewrite Hcd; reflexivity).
    rewrite (IH _ l _ d2) by exact Hrest.
    unfold after_inserts. cbn. rewrite <- !app_assoc. reflexivity.
Qed.

(** C5: when the database is available and the insert of every one of the
    [n] items succeeds, the bulk handler answers with [inserted = n] and with
    the ids the store assigned, in the order of the items; the store gateway
    has been called once per item, in that order, each call on the store the
    previous one left. *)
Theorem add_portfolio_bulk_inserts_all (items : list PortfolioItem) (w : World)
    (ids : list string) (d' : option Database) :
  is_Some (db w) ->
  sequential_inserts cd items (db w) = (Ok ids, d') ->
  add_portfolio_bulk cd items w
  = (Ok {| inserted := Z.of_nat (length items); ids := ids |},
     after_inserts items d' w)
  /\ length ids = length items
  /\ Forall2 (fun it i => exists d1 d2,
                  cd "portfolioitem" (ModelPortfolioItem it) d1 = (Ok i, d2))
       items ids.
Proof.
  intros [d Hdb] Hrun.
  pose proof (sequential_inserts_length _ _ _ _ Hrun) as Hlen.
  split; [|split; [exact Hlen|exact (sequential_inserts_assigned _ _ _ _ Hrun)]].
  unfold add_portfolio_bulk. unfold bind at 1. unfold get_db. rewrite Hdb.
  erewrite bind_ok by (apply for_each_inserts; exact Hrun).
  unfold ret. cbn [app]. rewrite Hlen. reflexivity.
Qed.

End Bulk.

(** *** Listing *)

Lemma insert_by_length {A} (le : A -> A -> bool) (x : A) (l : list A) :
  length (insert_by le x l) = S (length l).
Proof.
  induction l as [|y r IH]; cbn; [reflexivity|].
  destruct (le x y); cbn; [reflexivity|]. rewrite IH. reflexivity.
Qed.

Lemma sort_by_length {A} (le : A -> A -> bool) (l : list A) :
  length (sort_by le l) = length l.
Proof.
  induction l as [|x r IH]; cbn; [reflexivity|].
  rewrite insert_by_length. f_equal. exact IH.
Qed.

Lemma apply_sort_length (s : option (string * Z)) (l : list Document) :
  length (apply_sort s l) = length l.
Proof.
  destruct s as [[key direction]|]; cbn; [|reflexivity].
  destruct (direction <? 0); apply sort_by_length.
Qed.

(** What the loop of the listing does to a document read from the store. *)
Lemma pop_id_as_dict (d : Document) : pop_id (as_dict d) = Ok (shown d).
Proof.
  unfold pop_id, as_dict, shown. rewrite lookup_insert_eq.
  rewrite delete_insert_eq. reflexivity.
Qed.

Lemma for_each_pop_id (docs : list Document) :
  forall (acc : list (gmap string value)) (w : World),
    for_each (fun doc => lift (pop_id doc)) (as_dict <$> docs) acc w
    = (Ok (acc ++ (shown <$> docs))%list, w).
Proof.
  induction docs as [|d rest IH]; intros acc w; cbn.
  - unfold ret. rewrite app_nil_r. reflexivity.
  - unfold bind, lift. rewrite pop_id_as_dict.
    fold (for_each (fun doc => lift (pop_id doc)) (as_dict <$> rest)
            (acc ++ [shown d])%list w).
    rewrite IH, <- app_assoc. reflexivity.
Qed.

(** C6, amended: for a listing request served from an available database,
    the items are cut from the matching documents, newest first, after
    skipping (page-1)×limit of them, floored at 0; the response echoes page
    and limit and gives as total the count of all matching documents; and at
    most limit items are returned when limit is at least 1. *)
Theorem list_portfolio_page (category : option string) (page limit : Z)
    (w : World) (d : Database) :
  db w = Some d ->
  exists r : ListResponse,
    list_portfolio category page limit w = (Ok r, w)
    /\ resp_page r = page /\ resp_limit r = limit
    /\ resp_total r
       = count_documents (collection d "portfolioitem") (category_filter category)
    /\ resp_total r = Z.of_nat (length (listed d category))
    /\ resp_items r
       = shown <$> apply_limit limit
                     (drop (Z.to_nat (Z.max 0 ((page - 1) * limit))) (listed d category))
    /\ (1 <= limit ->
        resp_items r
        = shown <$> take (Z.to_nat limit)
                      (drop (Z.to_nat (Z.max 0 ((page - 1) * limit))) (listed d category))
        /\ Z.of_nat (length (resp_items r)) <= limit).
Proof.
  intros Hdb. unfold list_portfolio. unfold bind at 1. unfold get_db. rewrite Hdb.
  fold (category_filter category).
  unfold cursor_skip. destruct (Z.max 0 ((page - 1) * limit) <? 0) eqn:Hneg; [lia|].
  unfold bind at 1. unfold lift at 1.
  unfold iterate, cursor_limit, cursor_sort, find, matching.
  cbn [cur_docs cur_filter cur_sort cur_skip cur_limit].
  fold (listed d category).
  erewrite bind_ok by apply for_each_pop_id.
  unfold ret. cbn [app]. eexists. split; [reflexivity|].
  cbn [resp_page resp_limit resp_total resp_items].
  repeat split.
  - unfold count_documents, listed. rewrite apply_sort_length. reflexivity.
  - unfold apply_limit. destruct (limit =? 0) eqn:H0; [lia|].
    rewrite Z.abs_eq by lia. reflexivity.
  - unfold apply_limit. destruct (limit =? 0) eqn:H0; [lia|].
    rewrite Z.abs_eq by lia. rewrite length_fmap, length_take. lia.
Qed.

(** ** The theorems at concrete inputs *)

Lemma validate_contact_accepts_witness :
  validate_contact Sample.any_email
    {| body_name := Some "Ada"; body_email := Some "ada@example.org";
       body_phone := None; body_message := Some "abcde" |}
  = Some {| name := "Ada"; email := "ada@example.org"; phone := None;
            message := "abcde" |}.
Proof.
  apply (proj2 (proj2 (validate_contact_accepts Sample.any_email))).
  - unfold len. simpl. lia.
  - reflexivity.
  - exact I.
Defined.

Lemma submit_contact_falsy_id_witness :
  db (snd (persist Sample.anonymous_create_document Sample.payload
             (Sample.world Sample.env_unset (Some ∅))))
  = snd (Sample.create_document "contactmessage" (ModelContactMessage Sample.payload)
           (Some ∅))
  /\ exists r : ContactResponse,
       submit_contact Sample.int_of_digits Sample.anonymous_create_document Sample.relay_up
         Sample.any_header Sample.payload (Sample.world Sample.env_unset (Some ∅))
       = (Ok r,
          snd (notify Sample.int_of_digits Sample.relay_up Sample.any_header Sample.payload
                 (snd (persist Sample.anonymous_create_document Sample.payload
                         (Sample.world Sample.env_unset (Some ∅))))))
       /\ saved_id r = Some ""
       /\ detail r = "Email not sent and could not save.".
Proof.
  apply (submit_contact_falsy_id Sample.int_of_digits Sample.anonymous_create_document
           Sample.relay_up Sample.any_header Sample.payload
           (Sample.world Sample.env_unset (Some ∅)) _ ""
           (snd (Sample.create_document "contactmessage"
                   (ModelContactMessage Sample.payload) (Some ∅)))
           "SMTP not configured").
  - reflexivity.
  - reflexivity.
  - vm_compute. reflexivity.
Defined.

Lemma add_portfolio_bulk_inserts_all_witness :
  add_portfolio_bulk Sample.create_document
    [Sample.item Interiors "https://example.org/a.jpg";
     Sample.item Exteriors "https://example.org/b.jpg";
     Sample.item DroneAerial "https://example.org/c.jpg"]
    (Sample.world Sample.env_unset (Some ∅))
  = (Ok {| inserted := 3; ids := ["doc-0"; "doc-1"; "doc-2"] |},
     after_inserts
       [Sample.item Interiors "https://example.org/a.jpg";
        Sample.item Exteriors "https://example.org/b.jpg";
        Sample.item DroneAerial "https://example.org/c.jpg"]
       (snd (sequential_inserts Sample.create_document
               [Sample.item Interiors "https://example.org/a.jpg";
                Sample.item Exteriors "https://example.org/b.jpg";
                Sample.item DroneAerial "https://example.org/c.jpg"]
               (Some ∅)))
       (Sample.world Sample.env_unset (Some ∅))).
Proof.
  apply (add_portfolio_bulk_inserts_all Sample.create_document
           [Sample.item Interiors "https://example.org/a.jpg";
            Sample.item Exteriors "https://example.org/b.jpg";
            Sample.item DroneAerial "https://example.org/c.jpg"]
           (Sample.world Sample.env_unset (Some ∅))
           ["doc-0"; "doc-1"; "doc-2"]).
  - exists ∅. reflexivity.
  - vm_compute. reflexivity.
Defined.

Lemma list_portfolio_page_witness :
  exists r : ListResponse,
    list_portfolio None 2 1 (Sample.world Sample.env_unset (Some Sample.gallery))
    = (Ok r, Sample.world Sample.env_unset (Some Sample.gallery))
    /\ resp_page r = 2 /\ resp_limit r = 1 /\ resp_total r = 2
    /\ length (resp_items r) = 1%nat
    /\ (resp_items r !! 0%nat) ≫= (fun doc => doc !! "id") = Some (VStr "65f0a1").
Proof.
  destruct (list_portfolio_page None 2 1
              (Sample.world Sample.env_unset (Some Sample.gallery))
              Sample.gallery eq_refl)
    as (r & Hrun & Hpage & Hlimit & Htotal & _ & Hitems & _).
  exists r. split; [exact Hrun|]. split; [exact Hpage|]. split; [exact Hlimit|].
  split; [rewrite Htotal; vm_compute; reflexivity|].
  rewrite Hitems. split; vm_compute; reflexivity.
Defined.

(** ** Where a claim, read literally, fails *)

(** C6 as stated fails: with [limit = 0] the cursor applies no limit, and
    both documents are returned, more than [limit]. *)
Lemma list_portfolio_limit_zero_returns_all :
  exists r : ListResponse,
    fst (list_portfolio None 1 0 (Sample.world Sample.env_unset (Some Sample.gallery)))
    = Ok r
    /\ resp_limit r = 0
    /\ length (resp_items r) = 2%nat.
Proof. eexists. split; [vm_compute; reflexivity|]. split; reflexivity. Qed.

(** The pagination example: 20 matching items, limit 18, page 2 gives the
    last two and a total of 20. *)
Example list_portfolio_second_page :
  let docs := map (fun n => {| doc_id := str_Z (Z.of_nat n);
                               doc_fields := {["created_at" := VInt (Z.of_nat n)]} |})
                (seq 1 20) in
  match fst (list_portfolio None 2 18
               (Sample.world Sample.env_unset (Some {["portfolioitem" := docs]}))) with
  | Ok r => (length (resp_items r), resp_total r)
  | Raise _ => (0%nat, -1)
  end = (2%nat, 20).
Proof. vm_compute. reflexivity. Qed.


(** ** Further properties of the listing *)

(** The listing on an available database, in closed form. *)
Lemma list_portfolio_run (category : option string) (page limit : Z)
    (w : World) (d : Database) :
  db w = Some d ->
  list_portfolio category page limit w
  = (Ok {| resp_items :=
             shown <$> apply_limit limit
                         (drop (Z.to_nat (Z.max 0 ((page - 1) * limit)))
                            (listed d category));
           resp_total :=
             count_documents (collection d "portfolioitem") (category_filter category);
           resp_page := page; resp_limit := limit |}, w).
Proof.
  intros Hdb. unfold list_portfolio. unfold bind at 1. unfold get_db. rewrite Hdb.
  fold (category_filter category).
  unfold cursor_skip. destruct (Z.max 0 ((page - 1) * limit) <? 0) eqn:Hneg; [lia|].
  unfold bind at 1. unfold lift at 1.
  unfold iterate, cursor_limit, cursor_sort, find, matching.
  cbn [cur_docs cur_filter cur_sort cur_skip cur_limit].
  fold (listed d category).
  erewrite bind_ok by apply for_each_pop_id.
  reflexivity.
Qed.

Lemma page_items_run (category : option string) (page limit : Z)
    (w : World) (d : Database) :
  db w = Some d ->
  page_items category page limit w
  = shown <$> apply_limit limit
                (drop (Z.to_nat (Z.max 0 ((page - 1) * limit))) (listed d category)).
Proof.
  intros Hdb. unfold page_items. rewrite (list_portfolio_run _ _ _ _ _ Hdb).
  reflexivity.
Qed.

Section ListFacts.

Context {A : Type} (P : A -> Prop).

Lemma insert_by_Forall (le : A -> A -> bool) (x : A) (l : list A) :
  P x -> Forall P l -> Forall P (insert_by le x l).
Proof.
  intros Hx Hl. induction Hl as [|y r Hy Hr IH]; cbn.
  - constructor; [exact Hx|constructor].
  - destruct (le x y); constructor; auto.
Qed.

Lemma sort_by_Forall (le : A -> A -> bool) (l : list A) :
  Forall P l -> Forall P (sort_by le l).
Proof.
  intros Hl. induction Hl as [|x r Hx Hr IH]; cbn; [constructor|].
  apply insert_by_Forall; assumption.
Qed.

End ListFacts.

Lemma apply_sort_Forall (P : Document -> Prop) (s : option (string * Z))
    (l : list Document) :
  Forall P l -> Forall P (apply_sort s l).
Proof.
  intros Hl. destruct s as [[key direction]|]; cbn; [|exact Hl].
  destruct (direction <? 0); apply sort_by_Forall; exact Hl.
Qed.

Lemma apply_limit_Forall (P : Document -> Prop) (n : Z) (l : list Document) :
  Forall P l -> Forall P (apply_limit n l).
Proof.
  intros Hl. unfold apply_limit.
  destruct (n =? 0); [exact Hl|apply Forall_take; exact Hl].
Qed.

(** Every document of a page is a document of the collection that matches
    the filter. *)
Lemma page_documents (d : Database) (category : option string) (skip : nat) (limit : Z) :
  Forall (fun doc => In doc (collection d "portfolioitem")
                     /\ matches (category_filter category) doc = true)
    (apply_limit limit (drop skip (listed d category))).
Proof.
  apply apply_limit_Forall, Forall_drop. unfold listed. apply apply_sort_Forall.
  apply List.Forall_forall. intros doc Hin. apply filter_In in Hin. exact Hin.
Qed.

Lemma shown_lookup (doc : Document) (k : string) :
  k <> "id" -> k <> "_id" -> shown doc !! k = doc_fields doc !! k.
Proof.
  intros Hid H_id. unfold shown.
  rewrite lookup_insert_ne by congruence. rewrite lookup_delete_ne by congruence.
  reflexivity.
Qed.

Lemma shown_id (doc : Document) :
  shown doc !! "id" = Some (VStr (doc_id doc)) /\ shown doc !! "_id" = None.
Proof.
  unfold shown. split.
  - apply lookup_insert_eq.
  - rewrite lookup_insert_ne by discriminate. apply lookup_delete_eq.
Qed.

(** X1: every item of a listing stems from a stored document of the
    collection that matches the filter: it carries that document's id as a
    string under "id", has no "_id" key, and its other fields are the
    stored ones. *)
Theorem list_portfolio_items_from_store (category : option string) (page limit : Z)
    (w : World) (d : Database) :
  db w = Some d ->
  exists r : ListResponse,
    list_portfolio category page limit w = (Ok r, w)
    /\ forall item, In item (resp_items r) ->
         exists doc : Document,
           In doc (collection d "portfolioitem")
           /\ matches (category_filter category) doc = true
           /\ item !! "id" = Some (VStr (doc_id doc))
           /\ item !! "_id" = None
           /\ forall k, k <> "id" -> k <> "_id" -> item !! k = doc_fields doc !! k.
Proof.
  intros Hdb. rewrite (list_portfolio_run _ _ _ _ _ Hdb).
  eexists. split; [reflexivity|]. cbn [resp_items].
  intros item Hin. apply in_map_iff in Hin as (doc & <- & Hdoc).
  pose proof (page_documents d category
                (Z.to_nat (Z.max 0 ((page - 1) * limit))) limit) as Hall.
  rewrite List.Forall_forall in Hall. destruct (Hall doc Hdoc) as [Hcoll Hmatch].
  exists doc. destruct (shown_id doc) as [Hid H_id].
  split; [exact Hcoll|]. split; [exact Hmatch|]. split; [exact Hid|].
  split; [exact H_id|]. intros k. apply shown_lookup.
Qed.

Lemma matches_category (c : string) (doc : Document) :
  matches {["category" := VStr c]} doc = true ->
  doc_fields doc !! "category" = Some (VStr c).
Proof.
  unfold matches. intros H. apply bool_decide_eq_true in H.
  rewrite map_Forall_singleton in H. unfold as_dict in H.
  rewrite lookup_insert_ne in H by discriminate. exact H.
Qed.

(** X2: a listing asked for a (non-empty) category returns only items whose
    category is that string. *)
Theorem list_portfolio_category_only (c : string) (page limit : Z)
    (w : World) (d : Database) :
  db w = Some d -> c <> "" ->
  exists r : ListResponse,
    list_portfolio (Some c) page limit w = (Ok r, w)
    /\ forall item, In item (resp_items r) -> item !! "category" = Some (VStr c).
Proof.
  intros Hdb Hc. rewrite (list_portfolio_run _ _ _ _ _ Hdb).
  eexists. split; [reflexivity|]. cbn [resp_items].
  intros item Hin. apply in_map_iff in Hin as (doc & <- & Hdoc).
  pose proof (page_documents d (Some c)
                (Z.to_nat (Z.max 0 ((page - 1) * limit))) limit) as Hall.
  rewrite List.Forall_forall in Hall. destruct (Hall doc Hdoc) as [_ Hmatch].
  rewrite shown_lookup by discriminate.
  apply matches_category. revert Hmatch. unfold category_filter.
  destruct c; [contradiction|]. cbn. trivial.
Qed.

Lemma matches_empty (doc : Document) : matches ∅ doc = true.
Proof. unfold matches. apply bool_decide_eq_true. apply map_Forall_empty. Qed.

Lemma filter_all {A} (f : A -> bool) (l : list A) :
  (forall x, f x = true) -> List.filter f l = l.
Proof.
  intros Hf. induction l as [|x r IH]; cbn; [reflexivity|].
  rewrite Hf, IH. reflexivity.
Qed.

(** X3: without a category, or with the empty string as category, the
    listing is not filtered: its total is the size of the whole collection. *)
Theorem list_portfolio_unfiltered (category : option string) (page limit : Z)
    (w : World) (d : Database) :
  db w = Some d -> category = None \/ category = Some "" ->
  exists r : ListResponse,
    list_portfolio category page limit w = (Ok r, w)
    /\ resp_total r = Z.of_nat (length (collection d "portfolioitem"))
    /\ resp_items r = page_items None page limit w.
Proof.
  intros Hdb Hcat. rewrite (list_portfolio_run _ _ _ _ _ Hdb).
  eexists. split; [reflexivity|]. cbn [resp_items resp_total].
  rewrite (page_items_run _ _ _ _ _ Hdb).
  assert (category_filter category = ∅) as Hflt
      by (destruct Hcat as [-> | ->]; reflexivity).
  unfold count_documents, listed. rewrite Hflt.
  change (category_filter None) with (∅ : gmap string value).
  rewrite (filter_all _ _ matches_empty). split; reflexivity.
Qed.

(** *** The order of a listing *)

Lemma bson_leb_total (a b : option value) :
  bson_leb a b = false -> bson_leb b a = true.
Proof.
  unfold bson_leb.
  destruct (bson_rank a <? bson_rank b) eqn:Hab; [discriminate|].
  destruct (bson_rank b <? bson_rank a) eqn:Hba; [reflexivity|].
  destruct a as [[|x|x|x|x]|], b as [[|y|y|y|y]|]; cbn in *;
    try discriminate; try reflexivity; intros H.
  - destruct x, y; cbn in *; congruence.
  - lia.
  - destruct (String.leb_total x y); congruence.
  - destruct (String.leb_total x y); congruence.
Qed.

Section Sorting.

Context {A : Type} (le : A -> A -> bool).
Hypothesis le_total : forall a b, le a b = false -> le b a = true.

Let R (a b : A) : Prop := le a b = true.

Lemma insert_by_HdRel (a x : A) (l : list A) :
  R a x -> HdRel R a l -> HdRel R a (insert_by le x l).
Proof.
  intros Hax Hal. destruct l as [|y r]; cbn; [constructor; exact Hax|].
  destruct (le x y); constructor; [exact Hax|].
  inversion Hal; assumption.
Qed.

Lemma insert_by_Sorted (x : A) (l : list A) :
  Sorted R l -> Sorted R (insert_by le x l).
Proof.
  intros Hl. induction Hl as [|y r Hr IH Hy]; cbn.
  - constructor; constructor.
  - destruct (le x y) eqn:Hxy.
    + constructor; [constructor; assumption|constructor; exact Hxy].
    + constructor; [exact IH|].
      apply insert_by_HdRel; [apply le_total; exact Hxy|exact Hy].
Qed.

Lemma sort_by_Sorted (l : list A) : Sorted R (sort_by le l).
Proof.
  induction l as [|x r IH]; cbn; [constructor|].
  apply insert_by_Sorted. exact IH.
Qed.

End Sorting.

Section SortedFacts.

Context {A B : Type} (R : A -> A -> Prop) (R' : B -> B -> Prop) (f : A -> B).
Hypothesis f_mono : forall a b, R a b -> R' (f a) (f b).

Lemma Sorted_drop_keeps (n : nat) (l : list A) : Sorted R l -> Sorted R (drop n l).
Proof.
  revert l. induction n as [|n IH]; intros l Hl; [exact Hl|].
  destruct l as [|x r]; [constructor|]. cbn. apply IH.
  inversion Hl; assumption.
Qed.

Lemma Sorted_take_keeps (n : nat) (l : list A) : Sorted R l -> Sorted R (take n l).
Proof.
  revert n. induction l as [|x r IH]; intros n Hl.
  - destruct n; constructor.
  - destruct n as [|n]; cbn; [constructor|].
    inversion Hl as [|? ? Hr Hx]; subst. constructor; [apply IH; exact Hr|].
    destruct r as [|y r']; [destruct n; constructor|].
    destruct n; cbn; constructor. inversion Hx; assumption.
Qed.

Lemma Sorted_fmap_keeps (l : list A) : Sorted R l -> Sorted R' (f <$> l).
Proof.
  intros Hl. induction Hl as [|x r Hr IH Hx]; cbn; [constructor|].
  constructor; [exact IH|].
  destruct Hx; cbn; constructor. apply f_mono. assumption.
Qed.

End SortedFacts.

Lemma shown_created_at (doc : Document) :
  shown doc !! "created_at" = as_dict doc !! "created_at".
Proof.
  rewrite shown_lookup by discriminate. unfold as_dict.
  rewrite lookup_insert_ne by discriminate. reflexivity.
Qed.

(** X4: the items of a listing are ordered by [created_at], newest first:
    no item is older than the one after it. *)
Theorem list_portfolio_newest_first (category : option string) (page limit : Z)
    (w : World) (d : Database) :
  db w = Some d ->
  exists r : ListResponse,
    list_portfolio category page limit w = (Ok r, w)
    /\ Sorted newest_first (resp_items r).
Proof.
  intros Hdb. rewrite (list_portfolio_run _ _ _ _ _ Hdb).
  eexists. split; [reflexivity|]. cbn [resp_items].
  apply (Sorted_fmap_keeps
           (fun a b => bson_leb (as_dict b !! "created_at") (as_dict a !! "created_at")
                       = true)).
  - intros a b H. unfold newest_first. rewrite !shown_created_at. exact H.
  - unfold apply_limit.
    destruct (limit =? 0); [|apply Sorted_take_keeps];
      apply Sorted_drop_keeps; unfold listed, apply_sort; cbn;
      apply (sort_by_Sorted
               (fun a b => bson_leb (as_dict b !! "created_at")
                             (as_dict a !! "created_at")));
      intros a b; apply bson_leb_total.
Qed.

(** *** Pages *)

(** X6: a page number below 1 gives the first page, and a page past the end
    gives no items; the total is the same on every page. *)
Theorem list_portfolio_page_edges (category : option string) (page limit : Z)
    (w : World) (d : Database) :
  db w = Some d ->
  exists r r1 : ListResponse,
    list_portfolio category page limit w = (Ok r, w)
    /\ list_portfolio category 1 limit w = (Ok r1, w)
    /\ resp_total r = resp_total r1
    /\ (0 <= limit -> page <= 1 -> resp_items r = resp_items r1)
    /\ (1 <= limit -> resp_total r <= (page - 1) * limit -> resp_items r = []).
Proof.
  intros Hdb. rewrite !(list_portfolio_run _ _ _ _ _ Hdb).
  eexists. eexists. split; [reflexivity|]. split; [reflexivity|].
  cbn [resp_items resp_total]. split; [reflexivity|]. split.
  - intros Hlimit Hpage.
    replace (Z.max 0 ((page - 1) * limit)) with 0 by nia.
    replace (Z.max 0 ((1 - 1) * limit)) with 0 by lia. reflexivity.
  - intros Hlimit Hpast. unfold apply_limit. replace (limit =? 0) with false by lia.
    rewrite drop_ge; [rewrite take_nil; reflexivity|].
    unfold count_documents in Hpast. unfold listed.
    rewrite apply_sort_length. lia.
Qed.

(** ** Further properties of the creation handlers *)

Section Creation.

Variable cd : string -> Model -> option Database -> result string * option Database.

Lemma for_each_app {A B} (f : A -> M B) (l1 l2 : list A) :
  forall (acc : list B) (w : World),
    for_each f (l1 ++ l2)%list acc w
    = bind (for_each f l1 acc) (fun acc' => for_each f l2 acc') w.
Proof.
  induction l1 as [|x r IH]; intros acc w; cbn [app for_each].
  - reflexivity.
  - unfold bind. destruct (f x w) as [[y|e] w1]; [|reflexivity].
    rewrite IH. unfold bind. reflexivity.
Qed.

(** X7: the bulk handler has no rollback: when the insert of an item raises
    after the items before it were inserted, the handler raises that
    exception, the earlier inserts stay in the store, and no later item is
    attempted. *)
Theorem add_portfolio_bulk_stops_at_failure (inserted_items rest : list PortfolioItem)
    (it : PortfolioItem) (w : World) (ids : list string)
    (d1 d2 : option Database) (e : exn) :
  is_Some (db w) ->
  sequential_inserts cd inserted_items (db w) = (Ok ids, d1) ->
  cd "portfolioitem" (ModelPortfolioItem it) d1 = (Raise e, d2) ->
  add_portfolio_bulk cd (inserted_items ++ it :: rest)%list w
  = (Raise e, after_inserts (inserted_items ++ [it])%list d2 w).
Proof.
  intros [d Hdb] Hrun Hfail.
  unfold add_portfolio_bulk. unfold bind at 1. unfold get_db. rewrite Hdb.
  apply bind_raise. rewrite for_each_app.
  erewrite bind_ok by (apply for_each_inserts; exact Hrun).
  cbn [for_each app]. unfold bind, call_create_document. cbn [db after_inserts].
  rewrite Hfail. unfold after_inserts. cbn.
  rewrite map_app, app_assoc. reflexivity.
Qed.

(** X8: creating one item is the bulk creation of a one-item list: the same
    id, the same exception, the same effect on the store; and on an
    available database the store gateway is called exactly once, on
    "portfolioitem". *)
Theorem add_portfolio_item_as_bulk (item : PortfolioItem) (w : World) :
  match add_portfolio_item cd item w with
  | (Ok i, w') =>
      add_portfolio_bulk cd [item] w = (Ok {| inserted := 1; ids := [i] |}, w')
  | (Raise e, w') => add_portfolio_bulk cd [item] w = (Raise e, w')
  end
  /\ (is_Some (db w) ->
      add_portfolio_item cd item w
      = (fst (cd "portfolioitem" (ModelPortfolioItem item) (db w)),
         after_inserts [item]
           (snd (cd "portfolioitem" (ModelPortfolioItem item) (db w))) w)).
Proof.
  unfold add_portfolio_item, add_portfolio_bulk, bind, get_db.
  destruct (db w) as [d|] eqn:Hdb.
  - cbn [for_each]. unfold bind, call_create_document. rewrite Hdb.
    destruct (cd "portfolioitem" (ModelPortfolioItem item) (Some d)) as [[i|e] d'];
      (split; [reflexivity|intros _; reflexivity]).
  - cbn. split; [reflexivity|]. intros [x Hx]. discriminate.
Qed.

End Creation.

(** ** Further properties of the e-mail operation and the contact workflow *)

Lemma with_traffic_nil (w : World) : with_traffic [] w = w.
Proof. unfold with_traffic. rewrite app_nil_r. destruct w; reflexivity. Qed.

Lemma with_traffic_app (evs1 evs2 : list SmtpEvent) (w : World) :
  with_traffic evs2 (with_traffic evs1 w) = with_traffic (evs1 ++ evs2)%list w.
Proof. unfold with_traffic. cbn. rewrite app_assoc. reflexivity. Qed.

Lemma only_mails_pure {A} (r : result A) : only_mails (fun w => (r, w)).
Proof. intros w. exists []. cbn. rewrite with_traffic_nil. reflexivity. Qed.

Lemma only_mails_read {A} (f : World -> A) : only_mails (fun w => (Ok (f w), w)).
Proof. intros w. exists []. cbn. rewrite with_traffic_nil. reflexivity. Qed.

Lemma only_mails_bind {A B} (m : M A) (k : A -> M B) :
  only_mails m -> (forall a, only_mails (k a)) -> only_mails (bind m k).
Proof.
  intros Hm Hk w. unfold bind. destruct (Hm w) as [evs1 H1].
  destruct (m w) as [[a|e] w1]; cbn in H1; subst w1.
  - destruct (Hk a (with_traffic evs1 w)) as [evs2 H2].
    exists (evs1 ++ evs2)%list. rewrite H2. apply with_traffic_app.
  - exists evs1. reflexivity.
Qed.

Lemma only_mails_try_except {A} (m : M A) (h : exn -> M A) :
  only_mails m -> (forall e, only_mails (h e)) -> only_mails (try_except m h).
Proof.
  intros Hm Hh w. unfold try_except. destruct (Hm w) as [evs1 H1].
  destruct (m w) as [[a|e] w1]; cbn in H1; subst w1.
  - exists evs1. reflexivity.
  - destruct (Hh e (with_traffic evs1 w)) as [evs2 H2].
    exists (evs1 ++ evs2)%list. rewrite H2. apply with_traffic_app.
Qed.

Lemma only_mails_smtp_call (ev : SmtpEvent) (answer : option exn) :
  only_mails (smtp_call ev answer).
Proof. intros w. exists [ev]. reflexivity. Qed.

Section EmailTraffic.

Variable py_int : string -> result Z.
Variable relay : SmtpRelay.
Variable header_ok : string -> bool.

Lemma only_mails_with_smtp {A} (host : string) (port : Z) (body : M A) :
  only_mails body -> only_mails (with_smtp relay host port body).
Proof.
  intros Hbody. unfold with_smtp. apply only_mails_bind.
  - apply only_mails_smtp_call.
  - intros _ w. destruct (Hbody w) as [evs1 H1].
    destruct (body w) as [r w1]; cbn in H1; subst w1.
    exists (evs1 ++ [EvQuit])%list. unfold smtp_call.
    destruct (smtp_quit relay); cbn [snd]; rewrite <- with_traffic_app; reflexivity.
Qed.

Lemma only_mails_new_message (subject from_email to_email body : string) :
  only_mails (new_message header_ok subject from_email to_email body).
Proof.
  unfold new_message, set_header.
  repeat (apply only_mails_bind; [|intros _]);
    try (match goal with |- context [header_ok ?v] => destruct (header_ok v) end);
    apply only_mails_pure.
Qed.

(** The operation never touches the environment or the store. *)
Lemma only_mails_send_email (subject body from_email : string) :
  only_mails (send_email_via_smtp py_int relay header_ok subject body from_email).
Proof.
  unfold send_email_via_smtp.
  apply only_mails_bind; [apply only_mails_read|intros host].
  apply only_mails_bind; [apply only_mails_read|intros port_text].
  apply only_mails_bind; [apply only_mails_pure|intros port].
  apply only_mails_bind; [apply only_mails_read|intros user].
  apply only_mails_bind; [apply only_mails_read|intros password].
  apply only_mails_bind; [apply only_mails_read|intros contact_to].
  apply only_mails_bind; [apply only_mails_read|intros fallback_to].
  destruct (negb _); [apply only_mails_pure|].
  apply only_mails_bind; [apply only_mails_new_message|intros msg].
  apply only_mails_try_except; [|intros e; apply only_mails_pure].
  apply only_mails_bind; [|intros _; apply only_mails_pure].
  apply only_mails_with_smtp.
  apply only_mails_bind; [apply only_mails_smtp_call|intros _].
  apply only_mails_bind; [|intros _; apply only_mails_smtp_call].
  destruct (_ && _); [apply only_mails_smtp_call|apply only_mails_pure].
Qed.

End EmailTraffic.

(** X9: every submission is handed to the store gateway exactly once, on
    "contactmessage" and before anything else, whatever the gateway and the
    e-mail step then do: the store is left as that one call left it, and
    the e-mail step only adds traffic to the relay. *)
Theorem submit_contact_persists_once (py_int : string -> result Z)
    (cd : string -> Model -> option Database -> result string * option Database)
    (relay : SmtpRelay) (header_ok : string -> bool)
    (payload : ContactMessage) (w : World) :
  exists evs : list SmtpEvent,
    snd (submit_contact py_int cd relay header_ok payload w)
    = {| environ := environ w;
         db := snd (cd "contactmessage" (ModelContactMessage payload) (db w));
         store_calls :=
           (store_calls w ++ [("contactmessage", ModelContactMessage payload)])%list;
         smtp_log := (smtp_log w ++ evs)%list |}.
Proof.
  rewrite submit_contact_steps. unfold notify.
  destruct (only_mails_send_email py_int relay header_ok contact_subject
              (contact_body payload) (email payload)
              (snd (persist cd payload w))) as [evs Hevs].
  exists evs.
  destruct (send_email_via_smtp py_int relay header_ok contact_subject
              (contact_body payload) (email payload) (snd (persist cd payload w)))
    as [[[ok info]|e] w2]; cbn [snd] in *; subst w2;
    unfold persist, call_create_document;
    destruct (cd "contactmessage" (ModelContactMessage payload) (db w)) as [[i|e'] d'];
    reflexivity.
Qed.

Section EmailScenarios.

Variable py_int : string -> result Z.
Variable relay : SmtpRelay.
Variable header_ok : string -> bool.

Ltac run_session :=
  unfold new_message, set_header, with_smtp, smtp_call, credentials, outgoing in *;
  unfold bind, try_except, ret, raise; cbn.

Ltac close_session :=
  unfold with_traffic; cbn; rewrite <- ?app_assoc; reflexivity.

(** The session of a call that the relay accepts at every step. *)
Lemma send_email_via_smtp_session (subject body from_email : string) (w : World)
    (port : Z) :
  py_int (smtp_port_text w) = Ok port ->
  truthy (smtp_host w) && truthy (recipient w) = true ->
  header_ok subject = true -> header_ok from_email = true ->
  header_ok (default "" (recipient w)) = true ->
  smtp_connect relay (default "" (smtp_host w)) port = None ->
  smtp_starttls relay = None ->
  match credentials w with
  | Some (user, password) => smtp_login relay user password = None
  | None => True
  end ->
  smtp_send_message relay (outgoing subject body from_email w) = None ->
  smtp_quit relay = None ->
  send_email_via_smtp py_int relay header_ok subject body from_email w
  = (Ok (true, "sent"),
     with_traffic
       ([EvConnect (default "" (smtp_host w)) port; EvStartTLS]
        ++ match credentials w with
           | Some (user, password) => [EvLogin user password]
           | None => []
           end
        ++ [EvSendMessage (outgoing subject body from_email w); EvQuit])%list w).
Proof.
  intros Hport Hconf Hs Hf Ht Hconnect Htls Hlogin Hsend Hquit.
  rewrite send_email_via_smtp_guard, Hport, Hconf.
  run_session. rewrite Hs, Hf, Ht. cbn. rewrite Hconnect, Htls.
  destruct (truthy (environ w !! "SMTP_USER") && truthy (environ w !! "SMTP_PASS"));
    cbn; rewrite ?Hlogin, Hsend, Hquit; close_session.
Qed.

(** X10: with host and recipient configured, an integer port, accepted header
    values and a relay that accepts every step, the operation returns
    [(True, "sent")] after exactly this session: connect to the configured
    host and port, STARTTLS, a login only when user and password are both
    set, then the message (subject and body as given, from the sender, to
    the configured recipient), then QUIT. *)
Theorem send_email_via_smtp_delivers (subject body from_email : string) (w : World)
    (port : Z) :
  py_int (smtp_port_text w) = Ok port ->
  truthy (smtp_host w) && truthy (recipient w) = true ->
  header_ok subject = true -> header_ok from_email = true ->
  header_ok (default "" (recipient w)) = true ->
  smtp_connect relay (default "" (smtp_host w)) port = None ->
  smtp_starttls relay = None ->
  match credentials w with
  | Some (user, password) => smtp_login relay user password = None
  | None => True
  end ->
  smtp_send_message relay (outgoing subject body from_email w) = None ->
  smtp_quit relay = None ->
  send_email_via_smtp py_int relay header_ok subject body from_email w
  = (Ok (true, "sent"),
     with_traffic
       ([EvConnect (default "" (smtp_host w)) port; EvStartTLS]
        ++ match credentials w with
           | Some (user, password) => [EvLogin user password]
           | None => []
           end
        ++ [EvSendMessage (outgoing subject body from_email w); EvQuit])%list w).
Proof.
  intros Hport Hconf Hs Hf Ht Hconnect Htls Hlogin Hsend Hquit.
  rewrite send_email_via_smtp_guard, Hport, Hconf.
  run_session. rewrite Hs, Hf, Ht. cbn. rewrite Hconnect, Htls.
  destruct (truthy (environ w !! "SMTP_USER") && truthy (environ w !! "SMTP_PASS"));
    cbn; rewrite ?Hlogin, Hsend, Hquit; close_session.
Qed.

(** The persistence step leaves the environment and the relay's log as
    they were. *)
Lemma persist_keeps_mail
    (cd : string -> Model -> option Database -> result string * option Database)
    (payload : ContactMessage) (w : World) :
  environ (snd (persist cd payload w)) = environ w
  /\ smtp_log (snd (persist cd payload w)) = smtp_log w.
Proof.
  unfold persist, call_create_document.
  destruct (cd "contactmessage" (ModelContactMessage payload) (db w)) as [[i|e] d'];
    split; reflexivity.
Qed.

(** X13: a submission on a working mail configuration is answered with
    status "emailed", the id of the persistence step and the "emailed
    successfully" detail, whether or not persisting worked; the relay has
    received one message, from the submitter's address to the configured
    recipient, with the fixed subject and the composed body. *)
Theorem submit_contact_delivers
    (cd : string -> Model -> option Database -> result string * option Database)
    (payload : ContactMessage) (w : World) (port : Z) :
  py_int (smtp_port_text w) = Ok port ->
  truthy (smtp_host w) && truthy (recipient w) = true ->
  header_ok contact_subject = true -> header_ok (email payload) = true ->
  header_ok (default "" (recipient w)) = true ->
  smtp_connect relay (default "" (smtp_host w)) port = None ->
  smtp_starttls relay = None ->
  match credentials w with
  | Some (user, password) => smtp_login relay user password = None
  | None => True
  end ->
  smtp_send_message relay
    {| Subject := "New portfolio inquiry"; From := email payload;
       To := default "" (recipient w); content := contact_body payload |} = None ->
  smtp_quit relay = None ->
  submit_contact py_int cd relay header_ok payload w
  = (Ok {| status := "emailed"; saved_id := fst (persist cd payload w);
           detail := "Message emailed successfully" |},
     with_traffic
       ([EvConnect (default "" (smtp_host w)) port; EvStartTLS]
        ++ match credentials w with
           | Some (user, password) => [EvLogin user password]
           | None => []
           end
        ++ [EvSendMessage
              {| Subject := "New portfolio inquiry"; From := email payload;
                 To := default "" (recipient w); content := contact_body payload |};
            EvQuit])%list
       (snd (persist cd payload w))).
Proof.
  intros Hport Hconf Hs Hf Ht Hconnect Htls Hlogin Hsend Hquit.
  destruct (persist_keeps_mail cd payload w) as [Henv _].
  rewrite submit_contact_steps. unfold notify.
  rewrite (send_email_via_smtp_session contact_subject (contact_body payload)
             (email payload) (snd (persist cd payload w)) port);
    unfold outgoing, smtp_port_text, smtp_host, recipient, credentials in *;
    rewrite ?Henv; try assumption.
  reflexivity.
Qed.

(** X11: a step the relay refuses ends the session, and the refusal is
    returned as [(False, str(e))], never raised: after a refused connection
    nothing else is sent; after a refused STARTTLS neither the credentials
    nor the message are sent; after a refused login the message is not
    sent. (When QUIT raises as well, its exception is the one reported.) *)
Theorem send_email_via_smtp_refused (subject body from_email : string) (w : World)
    (port : Z) :
  py_int (smtp_port_text w) = Ok port ->
  truthy (smtp_host w) && truthy (recipient w) = true ->
  header_ok subject = true -> header_ok from_email = true ->
  header_ok (default "" (recipient w)) = true ->
  let host := default "" (smtp_host w) in
  let run := send_email_via_smtp py_int relay header_ok subject body from_email w in
  (forall e, smtp_connect relay host port = Some e ->
     run = (Ok (false, str_exn e), with_traffic [EvConnect host port] w))
  /\ (forall e, smtp_connect relay host port = None ->
        smtp_starttls relay = Some e ->
        run = (Ok (false, str_exn (default e (smtp_quit relay))),
               with_traffic [EvConnect host port; EvStartTLS; EvQuit] w))
  /\ (forall e user password, smtp_connect relay host port = None ->
        smtp_starttls relay = None ->
        credentials w = Some (user, password) ->
        smtp_login relay user password = Some e ->
        run = (Ok (false, str_exn (default e (smtp_quit relay))),
               with_traffic
                 [EvConnect host port; EvStartTLS; EvLogin user password; EvQuit] w)).
Proof.
  intros Hport Hconf Hs Hf Ht host run. subst host run.
  rewrite send_email_via_smtp_guard, Hport, Hconf.
  run_session. rewrite Hs, Hf, Ht. cbn. repeat split.
  - intros e Hconnect. rewrite Hconnect. close_session.
  - intros e Hconnect Htls. rewrite Hconnect, Htls.
    destruct (smtp_quit relay); close_session.
  - intros e user password Hconnect Htls Hcred Hlogin. rewrite Hconnect, Htls.
    destruct (truthy (environ w !! "SMTP_USER") && truthy (environ w !! "SMTP_PASS"));
      [|discriminate].
    injection Hcred as <- <-. cbn. rewrite Hlogin.
    destruct (smtp_quit relay); close_session.
Qed.

End EmailScenarios.

(** ** The diagnostics endpoint *)

Lemma take_chars_le (s : string) : forall n : nat, (chars (take_chars n s) <= n)%nat.
Proof.
  induction s as [|c r IH]; intros n; cbn; [lia|].
  destruct (is_continuation c) eqn:Hc; cbn.
  - rewrite Hc. apply IH.
  - destruct n as [|m]; cbn; [lia|]. rewrite Hc. specialize (IH m). lia.
Qed.

Lemma take_chars_all (s : string) :
  forall n : nat, (chars s <= n)%nat -> take_chars n s = s.
Proof.
  induction s as [|c r IH]; intros n Hn; cbn in *; [reflexivity|].
  destruct (is_continuation c).
  - rewrite IH by exact Hn. reflexivity.
  - destruct n as [|m]; [lia|]. rewrite IH by lia. reflexivity.
Qed.

Section DiagnosticsFacts.

Variable list_collection_names : Database -> result (list string).
Variable name_of : Database -> option string.

(** X14: the diagnostics endpoint never fails and leaves the world alone; it
    reports "Connected" exactly when there is a database handle and listing
    its collections succeeded, and then shows the first ten collection names
    the driver listed, never more than ten. *)
Theorem test_database_reports (w : World) :
  exists r : DiagResponse,
    test_database list_collection_names name_of w = (Ok r, w)
    /\ backend r = "✅ Running"
    /\ (connection_status r = "Connected" <->
        exists d names, db w = Some d /\ list_collection_names d = Ok names)
    /\ (forall d names,
          db w = Some d -> list_collection_names d = Ok names ->
          collections r = take 10 names /\ database r = "✅ Connected & Working")
    /\ (length (collections r) <= 10)%nat.
Proof.
  unfold test_database, probe.
  destruct (db w) as [d|] eqn:Hdb.
  - destruct (list_collection_names d) as [names|e] eqn:Hnames;
      (eexists; split; [reflexivity|]); cbn; (split; [reflexivity|]).
    + split; [split; [eauto|reflexivity]|]. split.
      * intros d' names' [= <-] Hn. rewrite Hnames in Hn. injection Hn as <-.
        split; reflexivity.
      * rewrite length_take. lia.
    + split; [split; [discriminate|]|].
      * intros (d' & names' & [= <-] & Hn). congruence.
      * split; [|lia]. intros d' names' [= <-] Hn. congruence.
  - eexists. split; [reflexivity|]. cbn. split; [reflexivity|].
    split; [split; [discriminate|intros (d' & names' & Hd & _); discriminate]|].
    split; [intros d' names' Hd; discriminate|lia].
Qed.

(** X15: what the diagnostics endpoint says when the store cannot be probed:
    without a database handle it reports "Available but not initialized"
    and neither URL nor name nor collections; when listing the collections
    raises, it stays "Not Connected", reports after "Connected but Error: "
    the first 80 characters of the exception text (all of it when it is no
    longer), and still reports whether [DATABASE_URL] is set and the
    database name ("Unknown" if there is none). *)
Theorem test_database_degrades (w : World) :
  exists r : DiagResponse,
    test_database list_collection_names name_of w = (Ok r, w)
    /\ (db w = None ->
        database r = "⚠️ Available but not initialized"
        /\ database_url r = None /\ database_name r = None
        /\ connection_status r = "Not Connected" /\ collections r = [])
    /\ (forall d e,
          db w = Some d -> list_collection_names d = Raise e ->
          exists text : string,
            database r = "⚠️ Connected but Error: " +:+ text
            /\ text = take_chars 80 (str_exn e)
            /\ len text <= 80
            /\ (len (str_exn e) <= 80 -> text = str_exn e)
            /\ connection_status r = "Not Connected" /\ collections r = []
            /\ database_url r
               = Some (if truthy (environ w !! "DATABASE_URL")
                       then "✅ Set" else "❌ Not Set")
            /\ database_name r
               = Some (if truthy (name_of d) then default "" (name_of d)
                       else "Unknown")).
Proof.
  unfold test_database, probe.
  destruct (db w) as [d|] eqn:Hdb.
  - destruct (list_collection_names d) as [names|e] eqn:Hnames;
      (eexists; split; [reflexivity|]); cbn;
      (split; [discriminate|]); intros d' e' [= <-] Hn; [congruence|].
    rewrite Hnames in Hn. injection Hn as <-.
    exists (str_exn_80 e). split; [reflexivity|]. split; [reflexivity|].
    split; [unfold len, str_exn_80; pose proof (take_chars_le (str_exn e) 80); lia|].
    split; [intros Hshort; apply take_chars_all; unfold len in Hshort; lia|].
    split; [reflexivity|]. split; [reflexivity|]. split; [reflexivity|].
    unfold py_or. destruct (truthy (name_of d)); reflexivity.
  - eexists. split; [reflexivity|]. cbn. split.
    + intros _. repeat split.
    + intros d e Hd. discriminate.
Qed.

End DiagnosticsFacts.

(** ** Validation of portfolio items *)

Lemma validate_category_literal (s : string) :
  is_Some (validate_category s)
  <-> In s ["Interiors"; "Exteriors"; "Drone / Aerial"; "Architectural Details";
            "Commercial Spaces"; "Short-Let & Airbnb"].
Proof.
  split.
  - intros [c H]. apply validate_category_Some in H as ->.
    destruct c; cbn; tauto.
  - intros H. cbn in H.
    destruct H as [<-|[<-|[<-|[<-|[<-|[<-|[]]]]]]]; eexists; reflexivity.
Qed.

Lemma optional_ge_Some (lo : Z) (f : option Z) :
  is_Some (optional_ge lo f) <-> f = None \/ exists n, f = Some n /\ lo <= n.
Proof.
  unfold optional_ge. destruct f as [n|].
  - destruct (lo <=? n) eqn:Hlo.
    + split; [intros _; right; exists n; split; [reflexivity|lia]|eauto].
    + split; [intros [x Hx]; discriminate|].
      intros [Hn|(x & [= <-] & Hb)]; [discriminate|lia].
  - split; [tauto|eauto].
Qed.

(** X16: a body is accepted as a [PortfolioItem] exactly when its category is
    one of the six literal strings, its src is a valid URL, and its width
    and its height are each absent or at least 1; title and caption are
    never a reason to reject, and an accepted item carries them unchanged. *)
Theorem validate_portfolio_item_accepts (valid_url : string -> option string)
    (b : PortfolioBody) :
  (is_Some (validate_portfolio_item valid_url b) <->
   (exists c, body_category b = Some c
              /\ In c ["Interiors"; "Exteriors"; "Drone / Aerial";
                       "Architectural Details"; "Commercial Spaces";
                       "Short-Let & Airbnb"])
   /\ (exists u, body_src b = Some u /\ is_Some (valid_url u))
   /\ (body_width b = None \/ exists n, body_width b = Some n /\ 1 <= n)
   /\ (body_height b = None \/ exists n, body_height b = Some n /\ 1 <= n))
  /\ (forall it, validate_portfolio_item valid_url b = Some it ->
        title it = body_title b /\ caption it = body_caption b
        /\ Some (category_str (category it)) = body_category b
        /\ width it = body_width b /\ height it = body_height b).
Proof.
  unfold validate_portfolio_item. split.
  - rewrite <- !optional_ge_Some.
    assert (forall A (x : A), is_Some (Some x)) as Hsome by eauto.
    assert (forall A, is_Some (@None A) -> False) as Hnone
        by (intros A [x Hx]; discriminate).
    destruct (body_category b) as [c|]; cbn [mbind option_bind].
    2: { split; [intros H; destruct (Hnone _ H)|intros ((c & [=] & _) & _)]. }
    pose proof (validate_category_literal c) as Hcat.
    destruct (validate_category c) as [k|]; cbn [mbind option_bind].
    2: { split; [intros H; destruct (Hnone _ H)|].
         intros ((c' & [= <-] & Hin) & _). destruct (Hnone _ (proj2 Hcat Hin)). }
    destruct (body_src b) as [u|]; cbn [mbind option_bind].
    2: { split; [intros H; destruct (Hnone _ H)|intros (_ & (u & [=] & _) & _)]. }
    destruct (valid_url u) as [u'|] eqn:Hurl; cbn [mbind option_bind].
    2: { split; [intros H; destruct (Hnone _ H)|].
         intros (_ & (u0 & [= <-] & H) & _). rewrite Hurl in H.
         destruct (Hnone _ H). }
    destruct (optional_ge 1 (body_width b)) as [wd|]; cbn [mbind option_bind].
    2: { split; [intros H; destruct (Hnone _ H)|].
         intros (_ & _ & H & _). destruct (Hnone _ H). }
    destruct (optional_ge 1 (body_height b)) as [h|]; cbn [mbind option_bind].
    2: { split; [intros H; destruct (Hnone _ H)|].
         intros (_ & _ & _ & H). destruct (Hnone _ H). }
    split; [|intros _; apply Hsome]. intros _.
    split; [exists c; split; [reflexivity|apply Hcat, Hsome]|].
    split; [exists u; split; [reflexivity|rewrite Hurl; apply Hsome]|].
    split; apply Hsome.
  - intros it.
    destruct (body_category b) as [c|]; cbn [mbind option_bind]; [|discriminate].
    destruct (validate_category c) as [k|] eqn:Hk; cbn [mbind option_bind]; [|discriminate].
    destruct (body_src b) as [u|]; cbn [mbind option_bind]; [|discriminate].
    destruct (valid_url u) as [u'|]; cbn [mbind option_bind]; [|discriminate].
    unfold optional_ge.
    destruct (body_width b) as [n|]; [destruct (1 <=? n)|]; cbn; try discriminate;
      (destruct (body_height b) as [m|]; [destruct (1 <=? m)|]; cbn; try discriminate);
      intros [= <-]; cbn; apply validate_category_Some in Hk as ->;
      repeat split.
Qed.

(** ** The further properties at concrete inputs *)

Lemma list_portfolio_items_from_store_witness :
  exists r : ListResponse,
    list_portfolio (Some "Interiors") 1 18 Demo.site = (Ok r, Demo.site)
    /\ forall item, In item (resp_items r) ->
         exists doc : Document,
           In doc (collection Sample.gallery "portfolioitem")
           /\ matches (category_filter (Some "Interiors")) doc = true
           /\ item !! "id" = Some (VStr (doc_id doc))
           /\ item !! "_id" = None
           /\ forall k, k <> "id" -> k <> "_id" -> item !! k = doc_fields doc !! k.
Proof.
  apply (list_portfolio_items_from_store (Some "Interiors") 1 18 Demo.site
           Sample.gallery).
  reflexivity.
Defined.

Lemma list_portfolio_category_only_witness :
  exists r : ListResponse,
    list_portfolio (Some "Drone / Aerial") 1 18 Demo.site = (Ok r, Demo.site)
    /\ forall item, In item (resp_items r) ->
         item !! "category" = Some (VStr "Drone / Aerial").
Proof.
  apply (list_portfolio_category_only "Drone / Aerial" 1 18 Demo.site Sample.gallery).
  - reflexivity.
  - discriminate.
Defined.

Lemma list_portfolio_unfiltered_witness :
  exists r : ListResponse,
    list_portfolio (Some "") 1 18 Demo.site = (Ok r, Demo.site)
    /\ resp_total r = Z.of_nat (length (collection Sample.gallery "portfolioitem"))
    /\ resp_items r = page_items None 1 18 Demo.site.
Proof.
  apply (list_portfolio_unfiltered (Some "") 1 18 Demo.site Sample.gallery).
  - reflexivity.
  - right. reflexivity.
Defined.

Lemma list_portfolio_newest_first_witness :
  exists r : ListResponse,
    list_portfolio None 1 18 Demo.site = (Ok r, Demo.site)
    /\ Sorted newest_first (resp_items r).
Proof.
  apply (list_portfolio_newest_first None 1 18 Demo.site Sample.gallery).
  reflexivity.
Defined.

Lemma list_portfolio_page_edges_witness :
  exists r r1 : ListResponse,
    list_portfolio None 0 1 Demo.site = (Ok r, Demo.site)
    /\ list_portfolio None 1 1 Demo.site = (Ok r1, Demo.site)
    /\ resp_total r = resp_total r1
    /\ (0 <= 1 -> 0 <= 1 -> resp_items r = resp_items r1)
    /\ (1 <= 1 -> resp_total r <= (0 - 1) * 1 -> resp_items r = []).
Proof.
  apply (list_portfolio_page_edges None 0 1 Demo.site Sample.gallery).
  reflexivity.
Defined.

Lemma add_portfolio_bulk_stops_at_failure_witness :
  add_portfolio_bulk Demo.capped_create_document Demo.three_items
    (Sample.world Sample.env_unset (Some ∅))
  = (Raise (Exception "quota exceeded"),
     after_inserts
       [Sample.item Interiors "https://example.org/a.jpg";
        Sample.item Exteriors "https://example.org/b.jpg"]
       (snd (Sample.create_document "portfolioitem"
               (ModelPortfolioItem (Sample.item Interiors "https://example.org/a.jpg"))
               (Some ∅)))
       (Sample.world Sample.env_unset (Some ∅))).
Proof.
  apply (add_portfolio_bulk_stops_at_failure Demo.capped_create_document
           [Sample.item Interiors "https://example.org/a.jpg"]
           [Sample.item DroneAerial "https://example.org/c.jpg"]
           (Sample.item Exteriors "https://example.org/b.jpg")
           (Sample.world Sample.env_unset (Some ∅))
           ["doc-0"]
           (snd (Sample.create_document "portfolioitem"
                   (ModelPortfolioItem (Sample.item Interiors "https://example.org/a.jpg"))
                   (Some ∅)))).
  - exists ∅. reflexivity.
  - vm_compute. reflexivity.
  - vm_compute. reflexivity.
Defined.

Lemma send_email_via_smtp_delivers_witness :
  send_email_via_smtp Sample.int_of_digits Sample.relay_up Sample.any_header "subject" "body"
    "ada@example.org" Demo.office
  = (Ok (true, "sent"),
     with_traffic
       [EvConnect "mail.example.org" 2525; EvStartTLS; EvLogin "studio" "secret";
        EvSendMessage {| Subject := "subject"; From := "ada@example.org";
                         To := "studio@example.org"; content := "body" |};
        EvQuit]
       Demo.office).
Proof.
  apply (send_email_via_smtp_delivers Sample.int_of_digits Sample.relay_up Sample.any_header
           "subject" "body" "ada@example.org" Demo.office 2525);
    vm_compute; reflexivity.
Defined.

Lemma send_email_via_smtp_refused_witness :
  send_email_via_smtp Sample.int_of_digits Sample.relay_down Sample.any_header "subject" "body"
    "ada@example.org" Demo.office
  = (Ok (false, "[Errno 111] Connection refused"),
     with_traffic [EvConnect "mail.example.org" 2525] Demo.office).
Proof.
  apply (proj1 (send_email_via_smtp_refused Sample.int_of_digits Sample.relay_down Sample.any_header
                  "subject" "body" "ada@example.org" Demo.office 2525
                  eq_refl eq_refl eq_refl eq_refl eq_refl)
           (Exception "[Errno 111] Connection refused")).
  reflexivity.
Defined.

Lemma send_email_via_smtp_returns_witness :
  exists (ok : bool) (info : string) (w' : World),
    send_email_via_smtp Sample.int_of_digits Sample.relay_down Sample.any_header "subject" "body"
      "ada@example.org" Demo.office
    = (Ok (ok, info), w').
Proof.
  apply (send_email_via_smtp_returns Sample.int_of_digits Sample.relay_down Sample.any_header
           "subject" "body" "ada@example.org" Demo.office 2525).
  - vm_compute. reflexivity.
  - intros _. repeat split.
Defined.

(** The diagnostics of the two-item site, and of a process without store. *)
Example test_database_connected :
  fst (test_database Demo.list_names Demo.handle_name Demo.site)
  = Ok {| backend := "✅ Running"; database := "✅ Connected & Working";
          database_url := Some "❌ Not Set"; database_name := Some "portfolio";
          connection_status := "Connected"; collections := ["portfolioitem"] |}.
Proof. vm_compute. reflexivity. Qed.

Example validate_portfolio_item_bogus :
  validate_portfolio_item Demo.any_url
    {| body_title := None; body_category := Some "Bogus";
       body_src := Some "https://example.org/a.jpg"; body_caption := None;
       body_width := None; body_height := None |} = None
  /\ validate_portfolio_item Demo.any_url
       {| body_title := None; body_category := Some "Interiors";
          body_src := Some "https://example.org/a.jpg"; body_caption := None;
          body_width := Some 0; body_height := None |} = None.
Proof. split; reflexivity. Qed.

Lemma submit_contact_delivers_witness :
  submit_contact Sample.int_of_digits Sample.failing_create_document Sample.relay_up Sample.any_header
    Sample.payload Demo.office
  = (Ok {| status := "emailed"; saved_id := None;
           detail := "Message emailed successfully" |},
     with_traffic
       [EvConnect "mail.example.org" 2525; EvStartTLS; EvLogin "studio" "secret";
        EvSendMessage
          {| Subject := "New portfolio inquiry"; From := "ada@example.org";
             To := "studio@example.org";
             content := contact_body Sample.payload |};
        EvQuit]
       (snd (persist Sample.failing_create_document Sample.payload Demo.office))).
Proof.
  apply (submit_contact_delivers Sample.int_of_digits Sample.relay_up Sample.any_header
           Sample.failing_create_document Sample.payload Demo.office 2525);
    vm_compute; reflexivity.
Defined.

(** ** The leftover user schema *)

Lemma optional_range_Some (lo hi : Z) (f : option Z) :
  is_Some (optional_range lo hi f)
  <-> f = None \/ exists n, f = Some n /\ lo <= n <= hi.
Proof.
  unfold optional_range. destruct f as [n|].
  - destruct ((lo <=? n) && (n <=? hi)) eqn:Hin.
    + split; [intros _; right; exists n; split; [reflexivity|lia]|eauto].
    + split; [intros [x Hx]; discriminate|].
      intros [Hn|(x & [= <-] & Hb)]; [discriminate|lia].
  - split; [tauto|eauto].
Qed.

(** X17: a body is accepted as a [User] exactly when it has a name, a
    syntactically valid email and an age that is absent or between 0 and
    120; an accepted user is active unless the body says otherwise. *)
Theorem validate_user_accepts (valid_email : string -> option string) (b : UserBody) :
  (is_Some (validate_user valid_email b) <->
   is_Some (ubody_name b)
   /\ (exists e, ubody_email b = Some e /\ is_Some (valid_email e))
   /\ (ubody_age b = None \/ exists n, ubody_age b = Some n /\ 0 <= n <= 120))
  /\ (forall u, validate_user valid_email b = Some u ->
        is_active u = default true (ubody_is_active b)
        /\ Some (user_name u) = ubody_name b
        /\ age u = ubody_age b /\ address u = ubody_address b).
Proof.
  unfold validate_user. split.
  - rewrite <- email_str_Some, <- optional_range_Some.
    destruct (ubody_name b) as [n|]; cbn [mbind option_bind].
    2: { split; [intros [x Hx]; discriminate|intros ([x Hx] & _); discriminate]. }
    destruct (email_str valid_email (ubody_email b)) as [e|]; cbn [mbind option_bind].
    2: { split; [intros [x Hx]; discriminate|intros (_ & [x Hx] & _); discriminate]. }
    destruct (optional_range 0 120 (ubody_age b)) as [a|]; cbn [mbind option_bind].
    2: { split; [intros [x Hx]; discriminate|intros (_ & _ & [x Hx]); discriminate]. }
    split; [|eauto]. intros _. repeat split; eauto.
  - intros u.
    destruct (ubody_name b) as [n|]; cbn [mbind option_bind]; [|discriminate].
    destruct (email_str valid_email (ubody_email b)) as [e|];
      cbn [mbind option_bind]; [|discriminate].
    unfold optional_range.
    destruct (ubody_age b) as [k|]; [destruct ((0 <=? k) && (k <=? 120))|];
      cbn [mbind option_bind]; try discriminate;
      intros [= <-]; repeat split.
Qed.

(** ** The port text is converted before the configuration is tested *)

Section PortError.

Variable py_int : string -> result Z.
Variable cd : string -> Model -> option Database -> result string * option Database.
Variable relay : SmtpRelay.
Variable header_ok : string -> bool.

(** [int()] is applied to the port text first and outside the [try]: what
    it raises leaves the operation, whatever the rest of the configuration. *)
Lemma send_email_via_smtp_port_error (subject body from_email : string) (w : World)
    (e : exn) :
  py_int (smtp_port_text w) = Raise e ->
  send_email_via_smtp py_int relay header_ok subject body from_email w = (Raise e, w).
Proof. intros Hport. rewrite send_email_via_smtp_guard, Hport. reflexivity. Qed.

Lemma persist_world (payload : ContactMessage) (w : World) :
  snd (persist cd payload w)
  = {| environ := environ w;
       db := snd (cd "contactmessage" (ModelContactMessage payload) (db w));
       store_calls :=
         (store_calls w ++ [("contactmessage", ModelContactMessage payload)])%list;
       smtp_log := smtp_log w |}.
Proof.
  unfold persist, call_create_document.
  destruct (cd "contactmessage" (ModelContactMessage payload) (db w)) as [[i|e] d'];
    reflexivity.
Qed.

Lemma submit_contact_port_error (payload : ContactMessage) (w : World) (e : exn) :
  py_int (smtp_port_text w) = Raise e ->
  submit_contact py_int cd relay header_ok payload w
  = (Raise e, snd (persist cd payload w)).
Proof.
  intros Hport. rewrite submit_contact_steps. unfold notify.
  rewrite (send_email_via_smtp_port_error _ _ _ _ e); [reflexivity|].
  unfold smtp_port_text in *. rewrite persist_world. exact Hport.
Qed.

(** C1: the code breaks the claim where [int()] rejects the port text (a
    blank [SMTP_PORT], say): the submission is handed to the store, then the
    handler raises what [int()] raised, so there is no response and no
    status, neither "emailed" nor "stored". *)
Theorem submit_contact_port_error_no_status (payload : ContactMessage) (w : World)
    (e : exn) :
  py_int (smtp_port_text w) = Raise e ->
  submit_contact py_int cd relay header_ok payload w
  = (Raise e,
     {| environ := environ w;
        db := snd (cd "contactmessage" (ModelContactMessage payload) (db w));
        store_calls :=
          (store_calls w ++ [("contactmessage", ModelContactMessage payload)])%list;
        smtp_log := smtp_log w |}).
Proof.
  intros Hport. rewrite (submit_contact_port_error _ _ _ Hport).
  rewrite persist_world. reflexivity.
Qed.

(** C2: the code breaks the claim where [int()] rejects the port text, also
    with host and recipient configured and a relay that would accept the
    message: the handler raises, the response carries none of the three
    detail messages, and nothing was sent to the relay. *)
Theorem submit_contact_port_error_no_detail (payload : ContactMessage) (w : World)
    (e : exn) :
  py_int (smtp_port_text w) = Raise e ->
  truthy (smtp_host w) && truthy (recipient w) = true ->
  fst (submit_contact py_int cd relay header_ok payload w) = Raise e
  /\ smtp_log (snd (submit_contact py_int cd relay header_ok payload w)) = smtp_log w.
Proof.
  intros Hport _. rewrite (submit_contact_port_error _ _ _ Hport).
  rewrite persist_world. split; reflexivity.
Qed.

(** C3: the code breaks the claim where persisting raises and [int()]
    rejects the port text: the exception of the store is swallowed and the
    saved id is null, as the claim says, but the handler then raises what
    [int()] raised: an error is surfaced and there is no response. *)
Theorem submit_contact_port_error_after_persist_failure (payload : ContactMessage)
    (w : World) (e0 e : exn) (d : option Database) :
  cd "contactmessage" (ModelContactMessage payload) (db w) = (Raise e0, d) ->
  py_int (smtp_port_text w) = Raise e ->
  fst (persist cd payload w) = None
  /\ submit_contact py_int cd relay header_ok payload w
     = (Raise e,
        {| environ := environ w; db := d;
           store_calls :=
             (store_calls w ++ [("contactmessage", ModelContactMessage payload)])%list;
           smtp_log := smtp_log w |}).
Proof.
  intros Hcd Hport. split; [exact (persist_raise _ _ _ _ _ Hcd)|].
  rewrite (submit_contact_port_error _ _ _ Hport), persist_world, Hcd.
  reflexivity.
Qed.

(** C4: the code breaks the claim where the host or the recipient is absent
    and [int()] rejects the port text: the operation does not return
    [(False, "SMTP not configured")], it raises what [int()] raised (and
    contacts no relay). *)
Theorem send_email_via_smtp_port_before_guard (subject body from_email : string)
    (w : World) (e : exn) :
  truthy (smtp_host w) && truthy (recipient w) = false ->
  py_int (smtp_port_text w) = Raise e ->
  send_email_via_smtp py_int relay header_ok subject body from_email w = (Raise e, w).
Proof. intros _ Hport. apply send_email_via_smtp_port_error. exact Hport. Qed.

End PortError.

Lemma submit_contact_port_error_no_status_witness :
  submit_contact Sample.int_of_digits Sample.create_document Sample.relay_up
    Sample.any_header Sample.payload (Sample.world Sample.env_blank (Some ∅))
  = (Raise (ValueError "invalid literal for int() with base 10: ''"),
     {| environ := Sample.env_blank;
        db := snd (Sample.create_document "contactmessage"
                     (ModelContactMessage Sample.payload) (Some ∅));
        store_calls := [("contactmessage", ModelContactMessage Sample.payload)];
        smtp_log := [] |}).
Proof.
  apply (submit_contact_port_error_no_status Sample.int_of_digits
           Sample.create_document Sample.relay_up Sample.any_header Sample.payload
           (Sample.world Sample.env_blank (Some ∅))).
  reflexivity.
Defined.

Lemma submit_contact_port_error_no_detail_witness :
  fst (submit_contact Sample.int_of_digits Sample.create_document Sample.relay_up
         Sample.any_header Sample.payload
         (Sample.world Sample.env_named_port (Some ∅)))
  = Raise (ValueError "invalid literal for int() with base 10: 'submission'")
  /\ smtp_log (snd (submit_contact Sample.int_of_digits Sample.create_document
                      Sample.relay_up Sample.any_header Sample.payload
                      (Sample.world Sample.env_named_port (Some ∅))))
     = [].
Proof.
  apply (submit_contact_port_error_no_detail Sample.int_of_digits
           Sample.create_document Sample.relay_up Sample.any_header Sample.payload
           (Sample.world Sample.env_named_port (Some ∅))).
  - reflexivity.
  - reflexivity.
Defined.

Lemma submit_contact_port_error_after_persist_failure_witness :
  fst (persist Sample.failing_create_document Sample.payload
         (Sample.world Sample.env_blank_port (Some ∅))) = None
  /\ submit_contact Sample.int_of_digits Sample.failing_create_document
       Sample.relay_up Sample.any_header Sample.payload
       (Sample.world Sample.env_blank_port (Some ∅))
     = (Raise (ValueError "invalid literal for int() with base 10: ''"),
        {| environ := Sample.env_blank_port; db := Some ∅;
           store_calls := [("contactmessage", ModelContactMessage Sample.payload)];
           smtp_log := [] |}).
Proof.
  apply (submit_contact_port_error_after_persist_failure Sample.int_of_digits
           Sample.failing_create_document Sample.relay_up Sample.any_header
           Sample.payload (Sample.world Sample.env_blank_port (Some ∅))
           (Exception "insert failed")).
  - reflexivity.
  - reflexivity.
Defined.

Lemma send_email_via_smtp_port_before_guard_witness :
  send_email_via_smtp Sample.int_of_digits Sample.relay_up Sample.any_header
    "subject" "body" "ada@example.org" (Sample.world Sample.env_blank_port None)
  = (Raise (ValueError "invalid literal for int() with base 10: ''"),
     Sample.world Sample.env_blank_port None).
Proof.
  apply (send_email_via_smtp_port_before_guard Sample.int_of_digits Sample.relay_up
           Sample.any_header "subject" "body" "ada@example.org"
           (Sample.world Sample.env_blank_port None)).
  - reflexivity.
  - reflexivity.
Defined.

(** Characters, not bytes, are counted: a one-character name is too short. *)
Example validate_contact_one_character_name :
  len "日" = 1
  /\ validate_contact Sample.any_email
       {| body_name := Some "日"; body_email := Some "ada@example.org";
          body_phone := None; body_message := Some "Hello there" |} = None.
Proof. split; reflexivity. Qed.

(** A page past the end of the two-item site: no items, the total still 2. *)
Example list_portfolio_past_the_end :
  match fst (list_portfolio None 3 1 Demo.site) with
  | Ok r => (resp_items r, resp_total r)
  | Raise _ => ([], -1)
  end = ([], 2).
Proof. vm_compute. reflexivity. Qed.
